(** * The sliding-window rate limiter of [src/hooks/useRateLimit.ts]

    A shallow embedding of the [useRateLimit] hook together with the two
    platform services it relies on: [localStorage] (a string-keyed store
    whose accesses may throw) and [JSON.parse] / [JSON.stringify].

    JavaScript numbers are modelled by [Z].  Every number the hook handles
    is an epoch-millisecond instant, a window length or a request count;
    on integers of magnitude below [2^53] the IEEE-754 arithmetic of the
    source ([+], [-], [<], [>=], [Math.max]) is exact and coincides with
    the arithmetic of [Z].

    Two neighbours of the hook are embedded as well: the administrators'
    configuration ([config/admin]: the identifier lists read from the
    environment, roles and permissions), and the page ([App]: [loadData]
    and [handleSubmitFeedback], which puts the limiter in front of
    [feedbaseService.createFeedback]). A run of the page is a list of
    events (renders, refreshes of the hook, calls of [loadData], changes
    of the form, submissions); a handler runs to completion before the
    next event, with every [await] taken in sequence, and reads the
    state as the latest render has it. The server is an oracle that
    answers or fails each request, in the order in which they are
    sent; the signed-in user does not change during a run. *)

From Stdlib Require Import ZArith Lia Bool Ascii String List.
From Stdlib Require Import Decimal DecimalString DecimalFacts DecimalZ.
From stdpp Require Import base option strings gmap.

Local Open Scope string_scope.
Local Open Scope Z_scope.

(** ** JSON text *)

Module JSON.

(** A text is a [string]: its characters stand for the code units of the
    JavaScript string, all taken to be below 256.

    A parsed JSON text.  A number keeps its exact decimal value
    [m * 10 ^ e]; a string is the sequence of its code units, so that an
    escaped and an unescaped spelling of a key denote the same key. *)
#[local] Unset Elimination Schemes.
Inductive json : Type :=
| JNull
| JBool (b : bool)
| JNumber (m e : Z)
| JString (s : list N)
| JArray (elements : list json)
| JObject (members : list (list N * json)).
#[local] Set Elimination Schemes.

Definition quote : ascii := "034"%char.
Definition backslash : ascii := "092"%char.

Definition code_units (s : string) : list N :=
  map N_of_ascii (list_ascii_of_string s).

(** *** Lexical helpers *)

Definition is_ws (c : ascii) : bool :=
  Ascii.eqb c " " || Ascii.eqb c "009" || Ascii.eqb c "010" || Ascii.eqb c "013".

Fixpoint skip_ws (s : string) : string :=
  match s with
  | String c r => if is_ws c then skip_ws r else s
  | EmptyString => s
  end.

Definition digit_of_char (c : ascii) : option (uint -> uint) :=
  match c with
  | "0" => Some D0 | "1" => Some D1 | "2" => Some D2 | "3" => Some D3
  | "4" => Some D4 | "5" => Some D5 | "6" => Some D6 | "7" => Some D7
  | "8" => Some D8 | "9" => Some D9
  | _ => None
  end%char.

(** The longest prefix of decimal digits, and what follows it. *)
Fixpoint take_digits (s : string) : uint * string :=
  match s with
  | String c r =>
      match digit_of_char c with
      | Some d => let '(u, r') := take_digits r in (d u, r')
      | None => (Nil, s)
      end
  | EmptyString => (Nil, EmptyString)
  end.

Definition hex_of_char (c : ascii) : option N :=
  let n := N_of_ascii c in
  if (48 <=? n)%N && (n <=? 57)%N then Some (n - 48)%N
  else if (65 <=? n)%N && (n <=? 70)%N then Some (n - 55)%N
  else if (97 <=? n)%N && (n <=? 102)%N then Some (n - 87)%N
  else None.

Definition hex4 (a b c d : ascii) : option N :=
  match hex_of_char a, hex_of_char b, hex_of_char c, hex_of_char d with
  | Some x, Some y, Some z, Some w => Some (((x * 16 + y) * 16 + z) * 16 + w)%N
  | _, _, _, _ => None
  end.

(** *** Numbers: [-? int frac? exp?] *)

Definition leading_zero (u : uint) : bool :=
  match u with
  | D0 Nil => false
  | D0 _ => true
  | _ => false
  end.

Definition is_nil (u : uint) : bool :=
  match u with Nil => true | _ => false end.

(** The optional fraction: its digits ([Nil] when there is none). *)
Definition parse_frac (s : string) : option (uint * string) :=
  match s with
  | String c r =>
      if Ascii.eqb c "." then
        let '(f, r') := take_digits r in
        if is_nil f then None else Some (f, r')
      else Some (Nil, s)
  | EmptyString => Some (Nil, s)
  end.

(** The optional exponent ([0] when there is none). *)
Definition parse_exp (s : string) : option (Z * string) :=
  match s with
  | String c r =>
      if Ascii.eqb c "e" || Ascii.eqb c "E" then
        let '(neg, r1) :=
          match r with
          | String c' r' =>
              if Ascii.eqb c' "-" then (true, r')
              else if Ascii.eqb c' "+" then (false, r')
              else (false, r)
          | EmptyString => (false, r)
          end in
        let '(x, r2) := take_digits r1 in
        if is_nil x then None
        else Some (if neg : bool then - Z.of_uint x else Z.of_uint x, r2)
      else Some (0, s)
  | EmptyString => Some (0, s)
  end.

Definition parse_number (s : string) : option (json * string) :=
  let '(neg, s1) :=
    match s with
    | String c r => if Ascii.eqb c "-" then (true, r) else (false, s)
    | EmptyString => (false, s)
    end in
  let '(i, s2) := take_digits s1 in
  if is_nil i || leading_zero i then None
  else
    match parse_frac s2 with
    | None => None
    | Some (f, s3) =>
        match parse_exp s3 with
        | None => None
        | Some (x, s4) =>
            let m := Z.of_uint (Decimal.app i f) in
            Some (JNumber (if neg : bool then - m else m)
                          (x - Z.of_nat (nb_digits f)), s4)
        end
    end.

(** *** Strings: the characters after the opening quote *)

Fixpoint parse_chars (s : string) : option (list N * string) :=
  match s with
  | EmptyString => None
  | String c r =>
      if Ascii.eqb c quote then Some ([], r)
      else if Ascii.eqb c backslash then
        match r with
        | EmptyString => None
        | String e r1 =>
            let continue (u : N) (rest : string) (k : option (list N * string)) :=
              match k with
              | Some (us, r') => Some (u :: us, r')
              | None => None
              end in
            if Ascii.eqb e quote then continue 34%N r1 (parse_chars r1)
            else if Ascii.eqb e backslash then continue 92%N r1 (parse_chars r1)
            else if Ascii.eqb e "/" then continue 47%N r1 (parse_chars r1)
            else if Ascii.eqb e "b" then continue 8%N r1 (parse_chars r1)
            else if Ascii.eqb e "f" then continue 12%N r1 (parse_chars r1)
            else if Ascii.eqb e "n" then continue 10%N r1 (parse_chars r1)
            else if Ascii.eqb e "r" then continue 13%N r1 (parse_chars r1)
            else if Ascii.eqb e "t" then continue 9%N r1 (parse_chars r1)
            else if Ascii.eqb e "u" then
              match r1 with
              | String h1 (String h2 (String h3 (String h4 r2))) =>
                  match hex4 h1 h2 h3 h4 with
                  | Some u => continue u r2 (parse_chars r2)
                  | None => None
                  end
              | _ => None
              end
            else None
        end
      else if (N_of_ascii c <? 32)%N then None
      else
        match parse_chars r with
        | Some (us, r') => Some (N_of_ascii c :: us, r')
        | None => None
        end
  end.

(** *** Values *)

(** What follows [word] at the head of [s]. *)
Fixpoint strip (word s : string) : option string :=
  match word with
  | EmptyString => Some s
  | String a word' =>
      match s with
      | String b s' => if Ascii.eqb a b then strip word' s' else None
      | EmptyString => None
      end
  end.

(** The literals [true], [false] and [null]. *)
Definition expect (word : string) (v : json) (s : string) : option (json * string) :=
  match strip word s with
  | Some r => Some (v, r)
  | None => None
  end.

Fixpoint parse_value (fuel : nat) (s : string) {struct fuel}
  : option (json * string) :=
  match fuel with
  | O => None
  | S fuel' =>
      match skip_ws s with
      | EmptyString => None
      | String c r =>
          if Ascii.eqb c "[" then
            match skip_ws r with
            | String c' r' =>
                if Ascii.eqb c' "]" then Some (JArray [], r')
                else
                  match parse_elements fuel' r with
                  | Some (vs, r'') => Some (JArray vs, r'')
                  | None => None
                  end
            | EmptyString => None
            end
          else if Ascii.eqb c "{" then
            match skip_ws r with
            | String c' r' =>
                if Ascii.eqb c' "}" then Some (JObject [], r')
                else
                  match parse_members fuel' r with
                  | Some (ms, r'') => Some (JObject ms, r'')
                  | None => None
                  end
            | EmptyString => None
            end
          else if Ascii.eqb c quote then
            match parse_chars r with
            | Some (us, r') => Some (JString us, r')
            | None => None
            end
          else if Ascii.eqb c "t" then expect "true" (JBool true) (String c r)
          else if Ascii.eqb c "f" then expect "false" (JBool false) (String c r)
          else if Ascii.eqb c "n" then expect "null" JNull (String c r)
          else parse_number (String c r)
      end
  end

with parse_elements (fuel : nat) (s : string) {struct fuel}
  : option (list json * string) :=
  match fuel with
  | O => None
  | S fuel' =>
      match parse_value fuel' s with
      | None => None
      | Some (v, r) =>
          match skip_ws r with
          | String c r' =>
              if Ascii.eqb c "," then
                match parse_elements fuel' r' with
                | Some (vs, r'') => Some (v :: vs, r'')
                | None => None
                end
              else if Ascii.eqb c "]" then Some ([v], r')
              else None
          | EmptyString => None
          end
      end
  end

with parse_members (fuel : nat) (s : string) {struct fuel}
  : option (list (list N * json) * string) :=
  match fuel with
  | O => None
  | S fuel' =>
      match skip_ws s with
      | String q r0 =>
          if Ascii.eqb q quote then
            match parse_chars r0 with
            | None => None
            | Some (k, r1) =>
                match skip_ws r1 with
                | String c r2 =>
                    if Ascii.eqb c ":" then
                      match parse_value fuel' r2 with
                      | None => None
                      | Some (v, r3) =>
                          match skip_ws r3 with
                          | String c' r4 =>
                              if Ascii.eqb c' "," then
                                match parse_members fuel' r4 with
                                | Some (ms, r5) => Some ((k, v) :: ms, r5)
                                | None => None
                                end
                              else if Ascii.eqb c' "}" then Some ([(k, v)], r4)
                              else None
                          | EmptyString => None
                          end
                      end
                    else None
                | EmptyString => None
                end
            end
          else None
      | EmptyString => None
      end
  end.

(** Every recursive call of the parser is on a strictly shorter input, and
    an array or object of [n] entries nests [n] calls: twice the length of
    the text is enough fuel for any text. *)
Definition fuel_for (s : string) : nat := 2 * String.length s + 2.

(** [JSON.parse]: [None] stands for the [SyntaxError] thrown on a text
    that is not JSON. *)
Definition parse (s : string) : option json :=
  match parse_value (fuel_for s) s with
  | Some (v, r) =>
      match skip_ws r with
      | EmptyString => Some v
      | String _ _ => None
      end
  | None => None
  end.

(** *** Reading a parsed value *)

(** The integer a number denotes, when it denotes one ([150] for the
    literal [1.5e2]). It is exact at every magnitude, and so agrees with
    [JSON.parse] on the integers below [2^53], among them every
    epoch-millisecond instant; beyond, [JSON.parse] rounds to the nearest
    double (and reads [1e400] as [Infinity]), which is not modelled. *)
Definition to_integer (m e : Z) : option Z :=
  if 0 <=? e then Some (m * 10 ^ e)
  else if m mod 10 ^ (- e) =? 0 then Some (m / 10 ^ (- e))
  else None.

(** The own property [k] of an object; of two members with the same key
    [JSON.parse] keeps the later one. *)
Fixpoint get (k : list N) (ms : list (list N * json)) : option json :=
  match ms with
  | [] => None
  | (k', v) :: r =>
      match get k r with
      | Some v' => Some v'
      | None => if decide (k = k') then Some v else None
      end
  end.

Fixpoint integers (l : list json) : option (list Z) :=
  match l with
  | [] => Some []
  | JNumber m e :: r =>
      match to_integer m e, integers r with
      | Some z, Some zs => Some (z :: zs)
      | _, _ => None
      end
  | _ :: _ => None
  end.

(** *** [JSON.stringify] at the type [{ requests: number[], resetTime: number }] *)

Definition stringify_number (z : Z) : string :=
  NilZero.string_of_int (Z.to_int z).

Fixpoint stringify_numbers (l : list Z) : string :=
  match l with
  | [] => EmptyString
  | z :: r =>
      match r with
      | [] => stringify_number z
      | _ :: _ => stringify_number z +:+ "," +:+ stringify_numbers r
      end
  end.

Definition stringify (requests : list Z) (resetTime : Z) : string :=
  "{" +:+ String quote "requests" +:+ String quote ":["
      +:+ stringify_numbers requests
      +:+ "]," +:+ String quote "resetTime" +:+ String quote ":"
      +:+ stringify_number resetTime +:+ "}".

End JSON.

(** ** The hook's data *)

(** [interface RateLimitConfig] *)
Record RateLimitConfig : Type := {
  key : string;
  maxRequests : Z;
  windowMs : Z;
  storageKey : option string
}.

(** [interface RateLimitState] *)
Record RateLimitState : Type := {
  canProceed : bool;
  remainingRequests : Z;
  resetTime : Z;
  timeUntilReset : Z
}.

(** The object [{ requests, resetTime }] that [loadFromStorage] returns and
    [saveToStorage] persists. *)
Module Data.
Record t : Type := make { requests : list Z; resetTime : Z }.
End Data.

(** ** The environment of a hook instance *)

(** What the hook can observe and change: the contents of [localStorage],
    whether reaching the store throws (storage disabled) and whether
    writing to it throws (quota exhausted), the successive readings of
    [Date.now()], the lines sent to [console.error], and the hook's
    React state. *)
Record World : Type := {
  localStorage : gmap string string;
  storage_denied : bool;
  storage_full : bool;
  clock : nat -> Z;
  ticks : nat;
  console : list string;
  state : RateLimitState
}.

Definition tick (w : World) : World :=
  {| localStorage := localStorage w; storage_denied := storage_denied w;
     storage_full := storage_full w; clock := clock w; ticks := S (ticks w);
     console := console w; state := state w |}.

Definition store (k v : string) (w : World) : World :=
  {| localStorage := <[k := v]> (localStorage w);
     storage_denied := storage_denied w; storage_full := storage_full w;
     clock := clock w; ticks := ticks w; console := console w;
     state := state w |}.

Definition log (line : string) (w : World) : World :=
  {| localStorage := localStorage w; storage_denied := storage_denied w;
     storage_full := storage_full w; clock := clock w; ticks := ticks w;
     console := (console w ++ [line])%list; state := state w |}.

Definition render (s : RateLimitState) (w : World) : World :=
  {| localStorage := localStorage w; storage_denied := storage_denied w;
     storage_full := storage_full w; clock := clock w; ticks := ticks w;
     console := console w; state := s |}.

(** ** Computations *)

(** How a piece of the source ends: with a value, with a thrown exception
    (carrying its name), or by using a value that does not inhabit the
    type the source gives it ([JSON.parse] returns [any]); what JavaScript
    does past that point is not modelled. *)
Inductive outcome (A : Type) : Type :=
| Value (a : A)
| Throws (e : string)
| Untyped.
Arguments Value {A} a.
Arguments Throws {A} e.
Arguments Untyped {A}.

Definition M (A : Type) : Type := World -> outcome A * World.

Definition ret {A : Type} (a : A) : M A := fun w => (Value a, w).

Definition bind {A B : Type} (m : M A) (k : A -> M B) : M B :=
  fun w =>
    match m w with
    | (Value a, w') => k a w'
    | (Throws e, w') => (Throws e, w')
    | (Untyped, w') => (Untyped, w')
    end.

Definition lift {A : Type} (o : outcome A) : M A := fun w => (o, w).

(** [try { body } catch (error) { handler }] *)
Definition try_catch {A : Type} (body : M A) (handler : string -> M A) : M A :=
  fun w =>
    match body w with
    | (Throws e, w') => handler e w'
    | r => r
    end.

Declare Scope hook_scope.
Delimit Scope hook_scope with hook.
Notation "x <- m ;; k" := (bind m (fun x => k))
  (at level 100, m at next level, right associativity) : hook_scope.
Notation "m ;; k" := (bind m (fun _ => k))
  (at level 100, right associativity) : hook_scope.
Local Open Scope hook_scope.

(** *** Platform services *)

(** [Date.now()] *)
Definition Date_now : M Z := fun w => (Value (clock w (ticks w)), tick w).

(** [localStorage.getItem(k)]: [None] is [null]. *)
Definition getItem (k : string) : M (option string) :=
  fun w =>
    if storage_denied w then (Throws "SecurityError", w)
    else (Value (localStorage w !! k), w).

(** [localStorage.setItem(k, v)] *)
Definition setItem (k v : string) : M unit :=
  fun w =>
    if storage_denied w then (Throws "SecurityError", w)
    else if storage_full w then (Throws "QuotaExceededError", w)
    else (Value tt, store k v w).

(** [console.error(message, error)] *)
Definition console_error (message e : string) : M unit :=
  fun w => (Value tt, log (message +:+ " " +:+ e) w).

(** [setState(s)] *)
Definition setState (s : RateLimitState) : M unit :=
  fun w => (Value tt, render s w).

(** [JSON.parse(text)] *)
Definition JSON_parse (text : string) : M JSON.json :=
  lift (match JSON.parse text with
        | Some j => Value j
        | None => Throws "SyntaxError"
        end).

(** *** Operations on a value of type [any] *)

(** [data.k], for a [k] that no prototype defines: reading it off [null]
    throws, off anything but an object it gives [undefined] ([None]). *)
Definition property (data : JSON.json) (k : string) : outcome (option JSON.json) :=
  match data with
  | JSON.JNull => Throws "TypeError"
  | JSON.JObject ms => Value (JSON.get (JSON.code_units k) ms)
  | _ => Value None
  end.

(** A value used at type [number]; [None] when it is [undefined]. *)
Definition number (v : option JSON.json) : outcome (option Z) :=
  match v with
  | None => Value None
  | Some (JSON.JNumber m e) =>
      match JSON.to_integer m e with
      | Some z => Value (Some z)
      | None => Untyped
      end
  | Some _ => Untyped
  end.

(** [now >= v]: the comparison with [undefined] (which converts to [NaN])
    is false. *)
Definition ge_number (now : Z) (v : option Z) : bool :=
  match v with
  | Some z => now >=? z
  | None => false
  end.

(** [v.filter(keep)] at type [number[]]: anything but an array has no
    method [filter], and the call throws. *)
Definition array_filter (v : option JSON.json) (keep : Z -> bool) : outcome (list Z) :=
  match v with
  | Some (JSON.JArray l) =>
      match JSON.integers l with
      | Some ts => Value (List.filter keep ts)
      | None => Untyped
      end
  | _ => Throws "TypeError"
  end.

(** The record a stored text holds, for a text that reads back at the type
    [{ requests: number[], resetTime: number }]: [JSON.parse] followed by
    the two property reads of [loadFromStorage]. *)
Definition deserialize (text : string) : option Data.t :=
  match JSON.parse text with
  | Some data =>
      match property data "requests", property data "resetTime" with
      | Value (Some (JSON.JArray l)), Value (Some (JSON.JNumber m e)) =>
          match JSON.integers l, JSON.to_integer m e with
          | Some requests, Some resetTime => Some (Data.make requests resetTime)
          | _, _ => None
          end
      | _, _ => None
      end
  | None => None
  end.

(** [saveToStorage]'s encoding of a record. *)
Definition serialize (d : Data.t) : string :=
  JSON.stringify (Data.requests d) (Data.resetTime d).

(** ** The hook *)

Section useRateLimit.

Variable config : RateLimitConfig.

(** [config.storageKey || `rateLimit_${config.key}`]: the empty string is
    falsy, like an absent key. *)
Definition effectiveStorageKey : string :=
  match storageKey config with
  | Some (String c k) => String c k
  | _ => "rateLimit_" +:+ key config
  end.

(** The initial value given to [useState]. *)
Definition initialState : M RateLimitState :=
  now <- Date_now ;;
  ret {| canProceed := true;
         remainingRequests := maxRequests config;
         resetTime := now + windowMs config;
         timeUntilReset := windowMs config |}.

(** The [try] block of [loadFromStorage]: [Some d] when it returns [d],
    [None] when control falls out of it. *)
Definition loadFromStorage_try : M (option Data.t) :=
  stored <- getItem effectiveStorageKey ;;
  match stored with
  | Some (String c s) =>
      data <- JSON_parse (String c s) ;;
      now <- Date_now ;;
      resetTime <- lift (property data "resetTime") ;;
      deadline <- lift (number resetTime) ;;
      (* If window has expired, reset *)
      if ge_number now deadline then
        ret (Some (Data.make [] (now + windowMs config)))
      else
        (* Filter out expired requests *)
        requests <- lift (property data "requests") ;;
        validRequests <-
          lift (array_filter requests
                  (fun timestamp => now - timestamp <? windowMs config)) ;;
        match deadline with
        | Some t => ret (Some (Data.make validRequests t))
        | None => lift Untyped
        end
  | _ => ret None
  end.

Definition loadFromStorage : M Data.t :=
  r <- try_catch loadFromStorage_try
         (fun error =>
            console_error "Error loading rate limit data:" error ;;
            ret None) ;;
  match r with
  | Some d => ret d
  | None =>
      now <- Date_now ;;
      ret (Data.make [] (now + windowMs config))
  end.

Definition saveToStorage (requests : list Z) (resetTime : Z) : M unit :=
  try_catch
    (setItem effectiveStorageKey (JSON.stringify requests resetTime))
    (fun error => console_error "Error saving rate limit data:" error).

Definition updateState : M unit :=
  data <- loadFromStorage ;;
  now <- Date_now ;;
  let remainingRequests :=
    Z.max 0 (maxRequests config - Z.of_nat (length (Data.requests data))) in
  let timeUntilReset := Z.max 0 (Data.resetTime data - now) in
  setState {| canProceed := 0 <? remainingRequests;
              remainingRequests := remainingRequests;
              resetTime := Data.resetTime data;
              timeUntilReset := timeUntilReset |}.

Definition recordRequest : M bool :=
  data <- loadFromStorage ;;
  now <- Date_now ;;
  (* Check if we can make the request *)
  if Z.of_nat (length (Data.requests data)) >=? maxRequests config then
    updateState ;;
    ret false
  else
    (* Record the request *)
    let newRequests := (Data.requests data ++ [now])%list in
    saveToStorage newRequests (Data.resetTime data) ;;
    updateState ;;
    ret true.

(** [n] calls of [recordRequest] in succession, with their results. *)
Fixpoint recordRequests (n : nat) : M (list bool) :=
  match n with
  | O => ret []
  | S n' =>
      b <- recordRequest ;;
      bs <- recordRequests n' ;;
      ret (b :: bs)
  end.

(** [n] calls of [updateState] in succession, as the mount effect and the
    one-second interval make them. *)
Fixpoint refreshes (n : nat) : M unit :=
  match n with
  | O => ret tt
  | S n' => updateState ;; refreshes n'
  end.

End useRateLimit.

(** [rateLimitConfigs] *)
Definition feedback : RateLimitConfig :=
  {| key := "feedback_submission"; maxRequests := 3;
     windowMs := 5 * 60 * 1000; storageKey := Some "feedbackRateLimit" |}.

Definition changelog : RateLimitConfig :=
  {| key := "changelog_creation"; maxRequests := 5;
     windowMs := 60 * 60 * 1000; storageKey := Some "changelogRateLimit" |}.

Definition api : RateLimitConfig :=
  {| key := "api_requests"; maxRequests := 100;
     windowMs := 60 * 1000; storageKey := Some "apiRateLimit" |}.

(** ** The administrators: [config/admin] *)

(** [import.meta.env]: a variable is a string, or undefined. *)
Record ImportMetaEnv : Type := {
  VITE_FEEDBASE_PROJECT_SLUG : option string;
  VITE_ADMIN_USER_IDS : option string;
  VITE_MODERATOR_USER_IDS : option string
}.

(** [variable || '']: an undefined variable reads as the empty string. *)
Definition or_empty (variable : option string) : string :=
  match variable with
  | Some s => s
  | None => EmptyString
  end.

(** [s.split(',')] *)
Fixpoint split_comma (s : string) : list string :=
  match s with
  | EmptyString => [EmptyString]
  | String c r =>
      if Ascii.eqb c "," then EmptyString :: split_comma r
      else
        match split_comma r with
        | h :: t => String c h :: t
        | [] => [String c EmptyString]
        end
  end.

(** [Boolean(s)]: the empty string is falsy. *)
Definition truthy (s : string) : bool :=
  match s with
  | EmptyString => false
  | String _ _ => true
  end.

(** [(variable || '').split(',').filter(Boolean)] *)
Definition user_ids (variable : option string) : list string :=
  List.filter truthy (split_comma (or_empty variable)).

(** [ids.includes(userId)] *)
Definition includes (ids : list string) (userId : string) : bool :=
  existsb (String.eqb userId) ids.

(** [keyof AdminConfig['permissions']] *)
Inductive Permission : Type :=
| canCreateChangelogs
| canModerateComments
| canViewAnalytics
| canManageUsers.

(** [enum UserRole] *)
Inductive UserRole : Type := USER | MODERATOR | ADMIN.

Section Admin.

Variable env : ImportMetaEnv.

Definition ADMIN_USER_IDS : list string := user_ids (VITE_ADMIN_USER_IDS env).

Definition MODERATOR_USER_IDS : list string :=
  user_ids (VITE_MODERATOR_USER_IDS env).

(** [adminConfig.permissions[permission]] *)
Definition permissions (permission : Permission) (userId : string) : bool :=
  match permission with
  | canCreateChangelogs =>
      includes ADMIN_USER_IDS userId || includes MODERATOR_USER_IDS userId
  | canModerateComments =>
      includes ADMIN_USER_IDS userId || includes MODERATOR_USER_IDS userId
  | canViewAnalytics => includes ADMIN_USER_IDS userId
  | canManageUsers => includes ADMIN_USER_IDS userId
  end.

(** [userId?: string]: [None] is undefined; [!userId] holds of undefined
    and of the empty string. [adminConfig.adminUserIds] and
    [adminConfig.moderatorUserIds] are the two lists above. *)
Definition isAdmin (userId : option string) : bool :=
  match userId with
  | Some (String c s) => includes ADMIN_USER_IDS (String c s)
  | _ => false
  end.

Definition isModerator (userId : option string) : bool :=
  match userId with
  | Some (String c s) => includes MODERATOR_USER_IDS (String c s)
  | _ => false
  end.

Definition hasPermission (userId : option string) (permission : Permission) : bool :=
  match userId with
  | Some (String c s) => permissions permission (String c s)
  | _ => false
  end.

Definition getUserRole (userId : option string) : UserRole :=
  match userId with
  | Some (String c s) =>
      if isAdmin userId then ADMIN
      else if isModerator userId then MODERATOR
      else USER
  | _ => USER
  end.

End Admin.

(** [ids.join(',')] *)
Fixpoint join_comma (ids : list string) : string :=
  match ids with
  | [] => EmptyString
  | id :: rest =>
      match rest with
      | [] => id
      | _ :: _ => id +:+ "," +:+ join_comma rest
      end
  end.

(** No comma in [s]. *)
Fixpoint comma_free (s : string) : bool :=
  match s with
  | EmptyString => true
  | String c r => negb (Ascii.eqb c ",") && comma_free r
  end.

(** ** The page: [App] *)

Module App.

(** [useAuth().user] *)
Record User : Type := { id : string }.

(** [newFeedback] *)
Record Draft : Type := { title : string; description : string }.

(** The object [handleSubmitFeedback] passes to [createFeedback]. *)
Record NewFeedback : Type := {
  new_title : string;
  new_description : string;
  new_status : string;
  new_tags : list string
}.

(** What [feedbaseApi] sends. *)
Inductive Request : Type :=
| GET (path : string)
| POST (path : string) (data : NewFeedback).

(** What the component can observe and change: the world of its rate
    limiter (with the console), the signed-in user, its React state, the
    messages shown by [alert], whether the submit event had its default
    action prevented, the requests sent so far, and the answer of the
    server to the [i]-th request ([None]: the request fails). *)
Record Page : Type := {
  hook : World;
  user : option User;
  feedback : JSON.json;
  changelogs : JSON.json;
  loading : bool;
  newFeedback : Draft;
  alerts : list string;
  defaultPrevented : bool;
  sent : list Request;
  respond : nat -> option JSON.json
}.

Definition P (A : Type) : Type := Page -> outcome A * Page.

Definition page_ret {A : Type} (a : A) : P A := fun p => (Value a, p).

Definition page_bind {A B : Type} (m : P A) (k : A -> P B) : P B :=
  fun p =>
    match m p with
    | (Value a, p') => k a p'
    | (Throws e, p') => (Throws e, p')
    | (Untyped, p') => (Untyped, p')
    end.

(** [try { body } catch (error) { handler }] *)
Definition page_try_catch {A : Type} (body : P A) (handler : string -> P A)
  : P A :=
  fun p =>
    match body p with
    | (Throws e, p') => handler e p'
    | r => r
    end.

(** [try { body } finally { finalizer }] *)
Definition try_finally {A : Type} (body : P A) (finalizer : P unit) : P A :=
  fun p =>
    match body p with
    | (Value a, p') =>
        match finalizer p' with
        | (Value _, p'') => (Value a, p'')
        | (Throws e, p'') => (Throws e, p'')
        | (Untyped, p'') => (Untyped, p'')
        end
    | (Throws e, p') =>
        match finalizer p' with
        | (Value _, p'') => (Throws e, p'')
        | (Throws e', p'') => (Throws e', p'')
        | (Untyped, p'') => (Untyped, p'')
        end
    | (Untyped, p') => (Untyped, p')
    end.

Declare Scope page_scope.
Delimit Scope page_scope with page.
Notation "x <- m ;; k" := (page_bind m (fun x => k))
  (at level 100, m at next level, right associativity) : page_scope.
Notation "m ;; k" := (page_bind m (fun _ => k))
  (at level 100, right associativity) : page_scope.
Local Open Scope page_scope.

(** *** The pieces of the page *)

Definition with_hook (w : World) (p : Page) : Page :=
  {| hook := w; user := user p; feedback := feedback p;
     changelogs := changelogs p; loading := loading p;
     newFeedback := newFeedback p; alerts := alerts p;
     defaultPrevented := defaultPrevented p; sent := sent p;
     respond := respond p |}.

(** A value of the current render. *)
Definition read {A : Type} (f : Page -> A) : P A := fun p => (Value (f p), p).

(** A computation of the hook, run in the page. *)
Definition of_hook {A : Type} (m : M A) : P A :=
  fun p => let (o, w) := m (hook p) in (o, with_hook w p).

(** [e.preventDefault()] *)
Definition preventDefault : P unit :=
  fun p =>
    (Value tt,
     {| hook := hook p; user := user p; feedback := feedback p;
        changelogs := changelogs p; loading := loading p;
        newFeedback := newFeedback p; alerts := alerts p;
        defaultPrevented := true; sent := sent p; respond := respond p |}).

(** [alert(message)] *)
Definition alert (message : string) : P unit :=
  fun p =>
    (Value tt,
     {| hook := hook p; user := user p; feedback := feedback p;
        changelogs := changelogs p; loading := loading p;
        newFeedback := newFeedback p; alerts := (alerts p ++ [message])%list;
        defaultPrevented := defaultPrevented p; sent := sent p;
        respond := respond p |}).

Definition setLoading (b : bool) : P unit :=
  fun p =>
    (Value tt,
     {| hook := hook p; user := user p; feedback := feedback p;
        changelogs := changelogs p; loading := b;
        newFeedback := newFeedback p; alerts := alerts p;
        defaultPrevented := defaultPrevented p; sent := sent p;
        respond := respond p |}).

Definition setNewFeedback (d : Draft) : P unit :=
  fun p =>
    (Value tt,
     {| hook := hook p; user := user p; feedback := feedback p;
        changelogs := changelogs p; loading := loading p;
        newFeedback := d; alerts := alerts p;
        defaultPrevented := defaultPrevented p; sent := sent p;
        respond := respond p |}).

Definition setFeedback (items : JSON.json) : P unit :=
  fun p =>
    (Value tt,
     {| hook := hook p; user := user p; feedback := items;
        changelogs := changelogs p; loading := loading p;
        newFeedback := newFeedback p; alerts := alerts p;
        defaultPrevented := defaultPrevented p; sent := sent p;
        respond := respond p |}).

Definition setChangelogs (items : JSON.json) : P unit :=
  fun p =>
    (Value tt,
     {| hook := hook p; user := user p; feedback := feedback p;
        changelogs := items; loading := loading p;
        newFeedback := newFeedback p; alerts := alerts p;
        defaultPrevented := defaultPrevented p; sent := sent p;
        respond := respond p |}).

(** A request of [feedbaseApi], awaited: it is sent, and the promise is
    fulfilled with [response.data] or rejected. *)
Definition request (r : Request) : P JSON.json :=
  fun p =>
    (match respond p (length (sent p)) with
     | Some data => Value data
     | None => Throws "AxiosError"
     end,
     {| hook := hook p; user := user p; feedback := feedback p;
        changelogs := changelogs p; loading := loading p;
        newFeedback := newFeedback p; alerts := alerts p;
        defaultPrevented := defaultPrevented p;
        sent := (sent p ++ [r])%list; respond := respond p |}).

(** [await Promise.all([a, b])]: both are started; the pair of their
    results, unless one is rejected. *)
Definition Promise_all {A B : Type} (a : P A) (b : P B) : P (A * B) :=
  fun p =>
    match a p with
    | (Value x, p1) =>
        match b p1 with
        | (Value y, p2) => (Value (x, y), p2)
        | (Throws e, p2) => (Throws e, p2)
        | (Untyped, p2) => (Untyped, p2)
        end
    | (Throws e, p1) =>
        match b p1 with
        | (Untyped, p2) => (Untyped, p2)
        | (_, p2) => (Throws e, p2)
        end
    | (Untyped, p1) => (Untyped, p1)
    end.

(** *** [String.prototype.trim] and the numbers of a template *)

(** White space and line terminators, among the code units below 256. *)
Definition is_space (c : ascii) : bool :=
  match N_of_ascii c with
  | 9%N | 10%N | 11%N | 12%N | 13%N | 32%N | 160%N => true
  | _ => false
  end.

Fixpoint trimStart (s : string) : string :=
  match s with
  | String c r => if is_space c then trimStart r else s
  | EmptyString => EmptyString
  end.

Fixpoint trimEnd (s : string) : string :=
  match s with
  | String c r =>
      match trimEnd r with
      | EmptyString => if is_space c then EmptyString else String c EmptyString
      | r' => String c r'
      end
  | EmptyString => EmptyString
  end.

Definition trim (s : string) : string := trimEnd (trimStart s).

(** [Math.ceil(t / 1000)] *)
Definition ceil_thousandth (t : Z) : Z := - ((- t) / 1000).

(** *** The types of the two lists *)

Definition is_string (v : JSON.json) : bool :=
  match v with
  | JSON.JString _ => true
  | _ => false
  end.

Definition is_number (v : JSON.json) : bool :=
  match v with
  | JSON.JNumber _ _ => true
  | _ => false
  end.

Definition is_boolean (v : JSON.json) : bool :=
  match v with
  | JSON.JBool _ => true
  | _ => false
  end.

Definition is_array_of (type : JSON.json -> bool) (v : JSON.json) : bool :=
  match v with
  | JSON.JArray l => forallb type l
  | _ => false
  end.

(** The object has the property [k], at the type [type]. *)
Definition has (type : JSON.json -> bool) (k : string)
    (ms : list (list N * JSON.json)) : bool :=
  match JSON.get (JSON.code_units k) ms with
  | Some v => type v
  | None => false
  end.

(** [interface FeedbackItem] *)
Definition is_FeedbackItem (v : JSON.json) : bool :=
  match v with
  | JSON.JObject ms =>
      has is_string "id" ms && has is_string "title" ms
      && has is_string "description" ms && has is_string "status" ms
      && has (is_array_of is_string) "tags" ms
      && has is_string "created_at" ms && has is_string "updated_at" ms
      && has is_number "upvotes" ms
  | _ => false
  end.

(** [interface Changelog] *)
Definition is_Changelog (v : JSON.json) : bool :=
  match v with
  | JSON.JObject ms =>
      has is_string "id" ms && has is_string "project_id" ms
      && has is_string "author_id" ms && has is_string "title" ms
      && has is_string "slug" ms && has is_string "summary" ms
      && has is_string "content" ms && has is_string "image" ms
      && has is_string "publish_date" ms && has is_boolean "published" ms
  | _ => false
  end.

(** *** The service and the component *)

Section Component.

Variable env : ImportMetaEnv.

(** The limiter of the component, [useRateLimit(rateLimitConfigs.feedback)]
    in the source; the handlers are given for any configuration. *)
Variable config : RateLimitConfig.

Definition PROJECT_SLUG : string := or_empty (VITE_FEEDBASE_PROJECT_SLUG env).

(** [feedbaseService] *)
Definition getChangelogs : P JSON.json :=
  request (GET ("/" +:+ PROJECT_SLUG +:+ "/changelogs")).

Definition createFeedback (data : NewFeedback) : P JSON.json :=
  request (POST "/feedback" data).

Definition getFeedback : P JSON.json := request (GET "/feedback").

Definition loadData : P unit :=
  page_try_catch
    (r <- Promise_all getFeedback getChangelogs ;;
     setFeedback (fst r) ;;
     setChangelogs (snd r))
    (fun error => of_hook (console_error "Error loading data:" error)).

Definition handleSubmitFeedback : P unit :=
  preventDefault ;;
  feedbackRateLimit <- read (fun p => state (hook p)) ;;
  if negb (canProceed feedbackRateLimit) then
    alert ("Rate limit exceeded. You can submit "
           +:+ JSON.stringify_number (remainingRequests feedbackRateLimit)
           +:+ " more feedback items. Please wait "
           +:+ JSON.stringify_number
                 (ceil_thousandth (timeUntilReset feedbackRateLimit))
           +:+ " seconds.")
  else
    user <- read user ;;
    match user with
    | None => alert "Please sign in to submit feedback"
    | Some _ =>
        newFeedback <- read newFeedback ;;
        if negb (truthy (trim (title newFeedback)))
           || negb (truthy (trim (description newFeedback))) then
          alert "Please fill in all fields"
        else
          setLoading true ;;
          try_finally
            (page_try_catch
               (recorded <- of_hook (recordRequest config) ;;
                if negb recorded then
                  alert "Rate limit exceeded. Please try again later."
                else
                  createFeedback
                    {| new_title := title newFeedback;
                       new_description := description newFeedback;
                       new_status := "submitted";
                       new_tags := [] |} ;;
                  setNewFeedback
                    {| title := EmptyString; description := EmptyString |} ;;
                  loadData ;;
                  alert "Feedback submitted successfully!")
               (fun error =>
                  of_hook (console_error "Error submitting feedback:" error) ;;
                  alert "Error submitting feedback. Please try again."))
            (setLoading false)
    end.



(** One evaluation of the component. The hook is called first, and the
    argument of its [useState] reads the clock at every render. Signed
    out, the component returns the sign-in form; signed in, it goes
    through [feedback] and [changelogs] ([length], [map], the fields of
    each item), which are of type [FeedbackItem[]] and [Changelog[]];
    what a list outside its type does to the render is not modelled. *)
Definition render : P unit :=
  of_hook (initialState config) ;;
  user <- read user ;;
  match user with
  | None => page_ret tt
  | Some _ =>
      feedback <- read feedback ;;
      changelogs <- read changelogs ;;
      if is_array_of is_FeedbackItem feedback
         && is_array_of is_Changelog changelogs
      then page_ret tt
      else fun p => (Untyped, p)
  end.




End Component.


End App.

(** ** Vocabulary of the properties *)

(** [w'] has the store of [w]: the same texts, the same faults, the same
    clock. *)
Definition same_storage (w w' : World) : Prop :=
  localStorage w' = localStorage w /\ storage_denied w' = storage_denied w
  /\ storage_full w' = storage_full w /\ clock w' = clock w.

(** The store can be read and written. *)
Definition operational (w : World) : Prop :=
  storage_denied w = false /\ storage_full w = false.

(** Writing to the store throws. *)
Definition write_fails (w : World) : Prop :=
  storage_denied w = true \/ storage_full w = true.

(** The store can be read and holds the record [d] under the hook's key. *)
Definition persisted (config : RateLimitConfig) (w : World) (d : Data.t) : Prop :=
  storage_denied w = false
  /\ exists text, localStorage w !! effectiveStorageKey config = Some text
                  /\ deserialize text = Some d.

(** No text under the key, or one that is not JSON. *)
Definition unreadable (config : RateLimitConfig) (w : World) : Prop :=
  match localStorage w !! effectiveStorageKey config with
  | Some text => JSON.parse text = None
  | None => True
  end.

(** A parsed value on which every read of [loadFromStorage] stays within
    the types of the source: [null], or a value whose [resetTime] is an
    integer and whose [requests], if an array, holds integers, or a value
    with neither a [resetTime] nor an array of [requests]. *)
Definition typed (data : JSON.json) : bool :=
  match property data "resetTime", property data "requests" with
  | Value resetTime, Value requests =>
      match number resetTime, requests with
      | Value (Some _), Some (JSON.JArray l) =>
          match JSON.integers l with Some _ => true | None => false end
      | Value None, Some (JSON.JArray _) => false
      | Value _, _ => true
      | _, _ => false
      end
  | _, _ => true
  end.

(** The text under the key, if it is JSON, is [typed]. *)
Definition storage_typed (config : RateLimitConfig) (w : World) : bool :=
  match localStorage w !! effectiveStorageKey config with
  | Some text =>
      match JSON.parse text with
      | Some data => typed data
      | None => true
      end
  | None => true
  end.

(** The record of a window that opens at [now]. *)
Definition new_window (config : RateLimitConfig) (now : Z) : Data.t :=
  Data.make [] (now + windowMs config).

(** The record [d] without the timestamps that are a window old at [now]. *)
Definition live (config : RateLimitConfig) (now : Z) (d : Data.t) : Data.t :=
  Data.make (List.filter (fun t => now - t <? windowMs config) (Data.requests d))
            (Data.resetTime d).

(** The state [updateState] derives from a loaded record. *)
Definition derive (config : RateLimitConfig) (d : Data.t) (now : Z) : RateLimitState :=
  let remaining :=
    Z.max 0 (maxRequests config - Z.of_nat (length (Data.requests d))) in
  {| canProceed := 0 <? remaining;
     remainingRequests := remaining;
     resetTime := Data.resetTime d;
     timeUntilReset := Z.max 0 (Data.resetTime d - now) |}.

(** The state a refresh reports when nothing is on record. *)
Definition unused (config : RateLimitConfig) (now now' : Z) : RateLimitState :=
  derive config (new_window config now) now'.

(** The world after [saveToStorage requests resetTime]. *)
Definition saved (config : RateLimitConfig) (requests : list Z) (resetTime : Z)
    (w : World) : World :=
  if storage_denied w then log "Error saving rate limit data: SecurityError" w
  else if storage_full w
       then log "Error saving rate limit data: QuotaExceededError" w
       else store (effectiveStorageKey config)
                  (JSON.stringify requests resetTime) w.

(** Nothing was recorded yet: no text under the key (the window then ends
    one window after the first reading of the clock), or a record without
    timestamps. *)
Definition empty_history (config : RateLimitConfig) (w : World) (deadline : Z) : Prop :=
  (localStorage w !! effectiveStorageKey config = None
   /\ deadline = clock w (ticks w) + windowMs config)
  \/ persisted config w (Data.make [] deadline).

(** The next [n] readings of the clock fall in one window: none is before
    the first, none is a window later than the first, none reaches the
    deadline. *)
Definition within_window (config : RateLimitConfig) (w : World) (deadline : Z)
    (n : nat) : Prop :=
  forall i, (ticks w <= i < ticks w + n)%nat ->
    clock w (ticks w) <= clock w i < clock w (ticks w) + windowMs config
    /\ clock w i < deadline.

(** The world [w] after [k] accepted requests, counted from [w0]. *)
Definition recorded (config : RateLimitConfig) (w0 : World) (deadline : Z)
    (k : nat) (w : World) : Prop :=
  operational w /\ clock w = clock w0 /\ ticks w = (ticks w0 + 4 * k)%nat
  /\ match k with
     | O => empty_history config w0 deadline
            /\ localStorage w = localStorage w0
     | S _ =>
         exists ts, persisted config w (Data.make ts deadline)
                    /\ length ts = k
                    /\ Forall (fun t => clock w0 (ticks w0) <= t) ts
                    /\ remainingRequests (state w)
                       = Z.max 0 (maxRequests config - Z.of_nat k)
                    /\ canProceed (state w)
                       = (0 <? Z.max 0 (maxRequests config - Z.of_nat k))
                    /\ resetTime (state w) = deadline
     end.

(** The record [d] is in force at clock reading [i]: its window has not
    ended and none of its timestamps is a window old. *)
Definition in_force (config : RateLimitConfig) (w : World) (d : Data.t) (i : nat) : Prop :=
  clock w i < Data.resetTime d
  /\ Forall (fun t => clock w i - t < windowMs config) (Data.requests d).

(** *** Sample worlds *)

Definition idle : RateLimitState :=
  {| canProceed := true; remainingRequests := 0; resetTime := 0;
     timeUntilReset := 0 |}.

(** A world that starts at tick [0], with nothing on the console. *)
Definition world (items : gmap string string) (denied full : bool)
    (clock : nat -> Z) : World :=
  {| localStorage := items; storage_denied := denied; storage_full := full;
     clock := clock; ticks := 0; console := []; state := idle |}.

(** A clock that advances by one millisecond per reading, from [start]. *)
Definition ticking (start : Z) : nat -> Z := fun n => start + Z.of_nat n.

(** A store that holds one record under the key of [feedback]. *)
Definition holding (requests : list Z) (resetTime : Z) : gmap string string :=
  {[ "feedbackRateLimit" := JSON.stringify requests resetTime ]}.

(** A limiter that admits nothing. *)
Definition closed : RateLimitConfig :=
  {| key := "closed"; maxRequests := 0; windowMs := 1000; storageKey := None |}.

(** *** Vocabulary of the JSON lemmas *)

(** A character that can start a number. *)
Definition number_start (c : ascii) : bool :=
  match JSON.digit_of_char c with Some _ => true | None => Ascii.eqb c "-" end.

(** A text that cannot continue a number. *)
Definition delimited (s : string) : Prop :=
  match s with
  | String c _ => JSON.digit_of_char c = None /\ Ascii.eqb c "." = false
                  /\ Ascii.eqb c "e" = false /\ Ascii.eqb c "E" = false
  | EmptyString => True
  end.

Definition integer (z : Z) : JSON.json := JSON.JNumber z 0.

(** What [JSON.parse] makes of a stringified record. *)
Definition object_of (requests : list Z) (resetTime : Z) : JSON.json :=
  JSON.JObject [(JSON.code_units "requests", JSON.JArray (map integer requests));
                (JSON.code_units "resetTime", integer resetTime)].

(** [parse_members] past the colon of a member with key [k]. *)
Definition member_after (f : nat) (k : list N) (r : string)
  : option (list (list N * JSON.json) * string) :=
  match JSON.parse_value f r with
  | None => None
  | Some (v, r3) =>
      match JSON.skip_ws r3 with
      | String c' r4 =>
          if Ascii.eqb c' "," then
            match JSON.parse_members f r4 with
            | Some (ms, r5) => Some ((k, v) :: ms, r5)
            | None => None
            end
          else if Ascii.eqb c' "}" then Some ([(k, v)], r4)
          else None
      | EmptyString => None
      end
  end.

(** *** Vocabulary of the further properties *)

(** [w'] differs from [w] at most in the text under the key of [config],
    the clock readings made, the console and the hook's state. *)
Definition same_elsewhere (config : RateLimitConfig) (w w' : World) : Prop :=
  (forall k, k <> effectiveStorageKey config ->
             localStorage w' !! k = localStorage w !! k)
  /\ storage_denied w' = storage_denied w
  /\ storage_full w' = storage_full w
  /\ clock w' = clock w.

(** Every request that finds the store as in [w] is accepted: reading
    the store throws, or writing to it throws and what it holds, if
    anything, is a record short of the limit. *)
Definition never_counting (config : RateLimitConfig) (w : World) : Prop :=
  storage_denied w = true
  \/ (storage_full w = true
      /\ (localStorage w !! effectiveStorageKey config = None
          \/ exists d, persisted config w d
                       /\ Z.of_nat (length (Data.requests d)) < maxRequests config)).

(** The clock never runs backwards. *)
Definition monotone (clock : nat -> Z) : Prop :=
  forall i j, (i <= j)%nat -> clock i <= clock j.

(** Nothing on record under the key, or a record whose window has ended
    by the next reading of the clock. *)
Definition lapsed (config : RateLimitConfig) (w : World) : Prop :=
  localStorage w !! effectiveStorageKey config = None
  \/ exists d, persisted config w d /\ Data.resetTime d <= clock w (ticks w).

(** A text of white space only. *)
Fixpoint blank (s : string) : bool :=
  match s with
  | String c r => App.is_space c && blank r
  | EmptyString => true
  end.

(** Neither field of the draft is blank once trimmed. *)
Definition filled (d : App.Draft) : bool :=
  truthy (App.trim (App.title d)) && truthy (App.trim (App.description d)).

(** The page passes the checks [handleSubmitFeedback] makes before it
    turns to the limiter: the rendered state lets it proceed, somebody is
    signed in, and the draft is filled in. *)
Definition ready (p : App.Page) : bool :=
  canProceed (state (App.hook p))
  && match App.user p with Some _ => true | None => false end
  && filled (App.newFeedback p).

(** What [handleSubmitFeedback] posts for a draft. *)
Definition submitted (d : App.Draft) : App.Request :=
  App.POST "/feedback"
    {| App.new_title := App.title d; App.new_description := App.description d;
       App.new_status := "submitted"; App.new_tags := [] |}.

(** The two requests of [loadData]. *)
Definition reload (env : ImportMetaEnv) : list App.Request :=
  [App.GET "/feedback";
   App.GET ("/" +:+ App.PROJECT_SLUG env +:+ "/changelogs")].


(** A page for the samples: somebody is signed in, the draft is filled
    in, nothing was sent yet. *)
Definition page (w : World) (respond : nat -> option JSON.json) : App.Page :=
  {| App.hook := w; App.user := Some {| App.id := "u1" |};
     App.feedback := JSON.JArray []; App.changelogs := JSON.JArray [];
     App.loading := false;
     App.newFeedback := {| App.title := "Title"; App.description := "Text" |};
     App.alerts := []; App.defaultPrevented := false; App.sent := [];
     App.respond := respond |}.

(** The page after a submission that stops at one of the checks, with
    the message it shows. *)
Definition refused (message : string) (p : App.Page) : App.Page :=
  {| App.hook := App.hook p; App.user := App.user p;
     App.feedback := App.feedback p; App.changelogs := App.changelogs p;
     App.loading := App.loading p; App.newFeedback := App.newFeedback p;
     App.alerts := (App.alerts p ++ [message])%list;
     App.defaultPrevented := true; App.sent := App.sent p;
     App.respond := App.respond p |}.

(** The page inside the [try] block, once the limiter has left its world
    as [w]. *)
Definition started (w : World) (p : App.Page) : App.Page :=
  {| App.hook := w; App.user := App.user p;
     App.feedback := App.feedback p; App.changelogs := App.changelogs p;
     App.loading := true; App.newFeedback := App.newFeedback p;
     App.alerts := App.alerts p;
     App.defaultPrevented := true; App.sent := App.sent p;
     App.respond := App.respond p |}.

(** The page once the draft has been posted and the form emptied. *)
Definition posted (p : App.Page) : App.Page :=
  {| App.hook := App.hook p; App.user := App.user p;
     App.feedback := App.feedback p; App.changelogs := App.changelogs p;
     App.loading := App.loading p;
     App.newFeedback := {| App.title := EmptyString;
                           App.description := EmptyString |};
     App.alerts := App.alerts p;
     App.defaultPrevented := App.defaultPrevented p;
     App.sent := (App.sent p ++ [submitted (App.newFeedback p)])%list;
     App.respond := App.respond p |}.

(** The page after the [catch] block, for the exception [e] thrown once
    the requests [sent] had left. *)
Definition failed (e : string) (sent : list App.Request) (p : App.Page) : App.Page :=
  {| App.hook := log ("Error submitting feedback: " +:+ e) (App.hook p);
     App.user := App.user p;
     App.feedback := App.feedback p; App.changelogs := App.changelogs p;
     App.loading := App.loading p; App.newFeedback := App.newFeedback p;
     App.alerts := App.alerts p;
     App.defaultPrevented := App.defaultPrevented p;
     App.sent := (App.sent p ++ sent)%list;
     App.respond := App.respond p |}.

(** The page after the last [alert] and the [finally] block. *)
Definition settled (message : string) (p : App.Page) : App.Page :=
  {| App.hook := App.hook p; App.user := App.user p;
     App.feedback := App.feedback p; App.changelogs := App.changelogs p;
     App.loading := false; App.newFeedback := App.newFeedback p;
     App.alerts := (App.alerts p ++ [message])%list;
     App.defaultPrevented := App.defaultPrevented p; App.sent := App.sent p;
     App.respond := App.respond p |}.

(** *** Vocabulary of the runs of the page *)







(** ** Tactics *)

(** Unfold the monad and the platform services. *)
Ltac run :=
  unfold loadFromStorage, loadFromStorage_try, saveToStorage, bind, try_catch,
    getItem, setItem, JSON_parse, lift, Date_now, ret, console_error, setState.

(** Case analysis on every [match] of the goal, innermost first. *)
Ltac cases :=
  repeat match goal with
         | |- context [match ?x with _ => _ end] =>
             lazymatch x with
             | context [match _ with _ => _ end] => fail
             | _ => destruct x eqn:?
             end
         end.

(** Case analysis on every [match] of the hypothesis [H]. *)
Ltac split_on H :=
  repeat match type of H with
         | context [match ?x with _ => _ end] =>
             lazymatch x with
             | context [match _ with _ => _ end] => fail
             | _ => destruct x eqn:?; try discriminate H
             end
         end.

(** The store can be read and holds [text], which reads back as the
    record of the goal: by evaluation. *)
Ltac holds text :=
  split; [reflexivity | exists text; split; vm_compute; reflexivity].

(** Rewrite the goal with the equations at hand, after [lift] where it
    applies. *)
Ltac replay lift :=
  repeat match goal with
         | E : _ = _ |- _ =>
             first [rewrite E | lift E; rewrite E]; clear E; cbv beta iota
         end.

(** Unfold the page's monad and primitives. *)
Ltac page_run :=
  repeat progress
    (cbv beta iota delta
       [App.page_bind App.page_ret App.read App.page_try_catch App.try_finally App.of_hook
        App.with_hook App.preventDefault App.alert App.setLoading
        App.setNewFeedback App.setFeedback App.setChangelogs App.request
        App.Promise_all App.getFeedback App.getChangelogs App.createFeedback];
     cbn [App.hook App.user App.feedback App.changelogs App.loading
          App.newFeedback App.alerts App.defaultPrevented App.sent
          App.respond App.title App.description fst snd negb andb orb]).

(** Case analysis on the answers of the server. *)
Ltac answers :=
  repeat match goal with
         | |- context [match App.respond ?q ?n with _ => _ end] =>
             destruct (App.respond q n)
         end.

(** ** The JSON parser *)

Section JSONFacts.

Import JSON.

(** *** One step of each parser *)

Lemma parse_value_S f s :
  parse_value (S f) s =
  match skip_ws s with
  | EmptyString => None
  | String c r =>
      if Ascii.eqb c "[" then
        match skip_ws r with
        | String c' r' =>
            if Ascii.eqb c' "]" then Some (JArray [], r')
            else
              match parse_elements f r with
              | Some (vs, r'') => Some (JArray vs, r'')
              | None => None
              end
        | EmptyString => None
        end
      else if Ascii.eqb c "{" then
        match skip_ws r with
        | String c' r' =>
            if Ascii.eqb c' "}" then Some (JObject [], r')
            else
              match parse_members f r with
              | Some (ms, r'') => Some (JObject ms, r'')
              | None => None
              end
        | EmptyString => None
        end
      else if Ascii.eqb c quote then
        match parse_chars r with
        | Some (us, r') => Some (JString us, r')
        | None => None
        end
      else if Ascii.eqb c "t" then expect "true" (JBool true) (String c r)
      else if Ascii.eqb c "f" then expect "false" (JBool false) (String c r)
      else if Ascii.eqb c "n" then expect "null" JNull (String c r)
      else parse_number (String c r)
  end.
Proof. reflexivity. Qed.

Lemma parse_elements_S f s :
  parse_elements (S f) s =
  match parse_value f s with
  | None => None
  | Some (v, r) =>
      match skip_ws r with
      | String c r' =>
          if Ascii.eqb c "," then
            match parse_elements f r' with
            | Some (vs, r'') => Some (v :: vs, r'')
            | None => None
            end
          else if Ascii.eqb c "]" then Some ([v], r')
          else None
      | EmptyString => None
      end
  end.
Proof. reflexivity. Qed.

Lemma parse_members_S f s :
  parse_members (S f) s =
  match skip_ws s with
  | String q r0 =>
      if Ascii.eqb q quote then
        match parse_chars r0 with
        | None => None
        | Some (k, r1) =>
            match skip_ws r1 with
            | String c r2 =>
                if Ascii.eqb c ":" then member_after f k r2 else None
            | EmptyString => None
            end
        end
      else None
  | EmptyString => None
  end.
Proof. reflexivity. Qed.

(** *** Every parser consumes input *)

Lemma skip_ws_le s : (String.length (skip_ws s) <= String.length s)%nat.
Proof.
  induction s as [|c s IH]; [reflexivity|].
  cbn [skip_ws]. destruct (is_ws c); cbn [String.length]; lia.
Qed.

Lemma take_digits_le s : forall u r,
  take_digits s = (u, r) ->
  (String.length r <= String.length s)%nat
  /\ (is_nil u = false -> String.length r < String.length s)%nat.
Proof.
  induction s as [|c s IH]; intros u r H; cbn [take_digits] in H.
  - injection H as <- <-. split; [reflexivity|discriminate].
  - destruct (digit_of_char c) as [d|].
    + destruct (take_digits s) as [u' r'] eqn:E. injection H as <- <-.
      destruct (IH u' r' eq_refl) as [Hle _]. cbn [String.length]. lia.
    + injection H as <- <-. split; [reflexivity|discriminate].
Qed.

Lemma parse_frac_le s f r :
  parse_frac s = Some (f, r) -> (String.length r <= String.length s)%nat.
Proof.
  unfold parse_frac. intros H. split_on H; injection H as <- <-; try reflexivity.
  match goal with E : take_digits _ = _ |- _ => apply take_digits_le in E as [? _] end.
  cbn [String.length]. lia.
Qed.

Lemma parse_exp_le s x r :
  parse_exp s = Some (x, r) -> (String.length r <= String.length s)%nat.
Proof.
  unfold parse_exp. intros H. split_on H; injection H as <- <-; try reflexivity;
    match goal with E : take_digits _ = _ |- _ => apply take_digits_le in E as [? _] end;
    repeat match goal with E : (_, _) = (_, _) |- _ => injection E as <- <- end;
    cbn [String.length] in *; lia.
Qed.

Lemma parse_number_lt s v r :
  parse_number s = Some (v, r) -> (String.length r < String.length s)%nat.
Proof.
  unfold parse_number. intros H.
  destruct (match s with
            | String c r0 => if Ascii.eqb c "-" then (true, r0) else (false, s)
            | EmptyString => (false, s)
            end) as [neg s1] eqn:E1.
  assert (H1 : (String.length s1 <= String.length s)%nat).
  { destruct s as [|c r0]; [now injection E1 as <- <-|].
    destruct (Ascii.eqb c "-"); injection E1 as <- <-; cbn [String.length]; lia. }
  destruct (take_digits s1) as [i s2] eqn:E2.
  destruct (is_nil i) eqn:Hn; [discriminate H|].
  destruct (leading_zero i); [discriminate H|]. cbn [orb] in H.
  destruct (parse_frac s2) as [[f s3]|] eqn:E3; [|discriminate H].
  destruct (parse_exp s3) as [[x s4]|] eqn:E4; [|discriminate H].
  injection H as <- <-.
  apply take_digits_le in E2 as [_ E2]. specialize (E2 Hn).
  apply parse_frac_le in E3. apply parse_exp_le in E4. lia.
Qed.

Lemma parse_chars_lt s : forall us r,
  parse_chars s = Some (us, r) -> (String.length r < String.length s)%nat.
Proof.
  remember (String.length s) as n eqn:En. revert s En.
  induction n as [n IH] using lt_wf_ind. intros s -> us r H.
  destruct s as [|c s]; [discriminate H|].
  cbn [parse_chars] in H. cbn [String.length].
  destruct (Ascii.eqb c quote); [injection H as <- <-; lia|].
  destruct (Ascii.eqb c backslash).
  - destruct s as [|e r1]; [discriminate H|]. cbn [String.length].
    assert (Hr1 : forall u us' r',
               match parse_chars r1 with
               | Some (us0, r0) => Some (u :: us0, r0)
               | None => None
               end = Some (us', r') ->
               (String.length r' < S (S (String.length r1)))%nat).
    { intros u us' r' H'. destruct (parse_chars r1) as [[us0 r0]|] eqn:E;
        [|discriminate H']. injection H' as <- <-.
      specialize (IH (String.length r1) ltac:(cbn [String.length]; lia)
                     r1 eq_refl _ _ E). lia. }
    repeat match type of H with
           | (if ?b then _ else _) = _ =>
               destruct b; [now apply Hr1 in H|]
           end.
    destruct (Ascii.eqb e "u"); [|discriminate H].
    destruct r1 as [|h1 [|h2 [|h3 [|h4 r2]]]]; try discriminate H.
    destruct (hex4 h1 h2 h3 h4); [|discriminate H].
    destruct (parse_chars r2) as [[us0 r0]|] eqn:E; [|discriminate H].
    injection H as <- <-.
    specialize (IH (String.length r2) ltac:(cbn [String.length]; lia)
                   r2 eq_refl _ _ E).
    cbn [String.length]. lia.
  - destruct (N_of_ascii c <? 32)%N; [discriminate H|].
    destruct (parse_chars s) as [[us0 r0]|] eqn:E; [|discriminate H].
    injection H as <- <-.
    specialize (IH (String.length s) ltac:(cbn [String.length]; lia)
                   s eq_refl _ _ E). lia.
Qed.

Lemma strip_length word : forall s r,
  strip word s = Some r ->
  (String.length r + String.length word = String.length s)%nat.
Proof.
  induction word as [|a word IH]; intros s r H; cbn [strip] in H.
  - injection H as <-. cbn [String.length]. lia.
  - destruct s as [|b s]; [discriminate H|].
    destruct (Ascii.eqb a b); [|discriminate H].
    apply IH in H. cbn [String.length]. lia.
Qed.

Lemma expect_lt word v s v' r :
  expect word v s = Some (v', r) -> (0 < String.length word)%nat ->
  (String.length r < String.length s)%nat.
Proof.
  unfold expect. destruct (strip word s) as [r0|] eqn:E; [|discriminate].
  intros [= <- <-] Hw. apply strip_length in E. lia.
Qed.

(** Turn the parsing equations at hand into facts about lengths. *)
Ltac lengths :=
  repeat match goal with
         | E : skip_ws ?a = _ |- _ =>
             let H := fresh in
             pose proof (skip_ws_le a) as H; rewrite E in H; clear E
         | E : parse_chars _ = Some _ |- _ => apply parse_chars_lt in E
         | E : parse_number _ = Some _ |- _ => apply parse_number_lt in E
         | E : expect _ _ _ = Some _ |- _ =>
             apply expect_lt in E; [|cbn [String.length]; lia]
         end;
  cbn [String.length] in *.

Lemma parse_consumes f :
  (forall s v r, parse_value f s = Some (v, r) ->
                 (String.length r < String.length s)%nat)
  /\ (forall s vs r, parse_elements f s = Some (vs, r) ->
                     (String.length r < String.length s)%nat)
  /\ (forall s ms r, parse_members f s = Some (ms, r) ->
                     (String.length r < String.length s)%nat).
Proof.
  induction f as [|f (IHv & IHe & IHm)]; [repeat split; discriminate|].
  split; [|split].
  - intros s v r H. rewrite parse_value_S in H. split_on H;
      try (injection H as <- <-);
      repeat match goal with
             | E : parse_elements f _ = Some _ |- _ => apply IHe in E
             | E : parse_members f _ = Some _ |- _ => apply IHm in E
             end; lengths; lia.
  - intros s vs r H. rewrite parse_elements_S in H. split_on H;
      try (injection H as <- <-);
      repeat match goal with
             | E : parse_elements f _ = Some _ |- _ => apply IHe in E
             | E : parse_value f _ = Some _ |- _ => apply IHv in E
             end; lengths; lia.
  - intros s ms r H. rewrite parse_members_S in H. unfold member_after in H.
    split_on H; try (injection H as <- <-);
      repeat match goal with
             | E : parse_members f _ = Some _ |- _ => apply IHm in E
             | E : parse_value f _ = Some _ |- _ => apply IHv in E
             end; lengths; lia.
Qed.

(** *** More fuel changes no result *)

Lemma parse_fuel_S f :
  (forall s x, parse_value f s = Some x -> parse_value (S f) s = Some x)
  /\ (forall s x, parse_elements f s = Some x -> parse_elements (S f) s = Some x)
  /\ (forall s x, parse_members f s = Some x -> parse_members (S f) s = Some x).
Proof.
  induction f as [|f (IHv & IHe & IHm)]; [repeat split; discriminate|].
  split; [|split]; intros s x H;
    [rewrite parse_value_S in *|rewrite parse_elements_S in *
    |rewrite parse_members_S in *; unfold member_after in *];
    split_on H; subst;
    replay ltac:(fun E => first [apply IHv in E|apply IHe in E|apply IHm in E]);
    first [exact H|reflexivity].
Qed.

Lemma parse_fuel_le f g :
  (f <= g)%nat ->
  (forall s x, parse_value f s = Some x -> parse_value g s = Some x)
  /\ (forall s x, parse_elements f s = Some x -> parse_elements g s = Some x)
  /\ (forall s x, parse_members f s = Some x -> parse_members g s = Some x).
Proof.
  induction 1 as [|g _ (IHv & IHe & IHm)]; [now repeat split|].
  destruct (parse_fuel_S g) as (Sv & Se & Sm).
  repeat split; auto.
Qed.

(** Whatever some amount of fuel parses, the fuel of [parse] parses. *)
Lemma parse_fuel_enough f :
  (forall s x, parse_value f s = Some x ->
               parse_value (2 * String.length s + 2) s = Some x)
  /\ (forall s x, parse_elements f s = Some x ->
                  parse_elements (2 * String.length s + 3) s = Some x)
  /\ (forall s x, parse_members f s = Some x ->
                  parse_members (2 * String.length s + 3) s = Some x).
Proof.
  induction f as [|f (IHv & IHe & IHm)]; [repeat split; discriminate|].
  destruct (parse_consumes f) as (Cv & Ce & Cm).
  split; [|split].
  - intros s x H.
    replace (2 * String.length s + 2)%nat
      with (S (2 * String.length s + 1)) by lia.
    rewrite parse_value_S in *.
    destruct (skip_ws s) as [|c r] eqn:E0; [discriminate H|].
    assert (H0 : (String.length r < String.length s)%nat) by (lengths; lia).
    destruct (Ascii.eqb c "[").
    { destruct (skip_ws r) as [|c' r'] eqn:E1; [discriminate H|].
      destruct (Ascii.eqb c' "]"); [exact H|].
      destruct (parse_elements f r) as [[vs r'']|] eqn:E2; [|discriminate H].
      apply IHe in E2.
      apply (proj1 (proj2 (parse_fuel_le (2 * String.length r + 3)
               (2 * String.length s + 1) ltac:(lia)))) in E2.
      now rewrite E2. }
    destruct (Ascii.eqb c "{"); [|exact H].
    destruct (skip_ws r) as [|c' r'] eqn:E1; [discriminate H|].
    destruct (Ascii.eqb c' "}"); [exact H|].
    destruct (parse_members f r) as [[ms r'']|] eqn:E2; [|discriminate H].
    apply IHm in E2.
    apply (proj2 (proj2 (parse_fuel_le (2 * String.length r + 3)
             (2 * String.length s + 1) ltac:(lia)))) in E2.
    now rewrite E2.
  - intros s x H.
    replace (2 * String.length s + 3)%nat
      with (S (2 * String.length s + 2)) by lia.
    rewrite parse_elements_S in *.
    destruct (parse_value f s) as [[v r]|] eqn:E; [|discriminate H].
    pose proof (Cv _ _ _ E) as Hlt.
    rewrite (IHv _ _ E).
    destruct (skip_ws r) as [|c r'] eqn:E1; [discriminate H|].
    assert (H1 : (String.length r' < String.length r)%nat) by (lengths; lia).
    destruct (Ascii.eqb c ","); [|exact H].
    destruct (parse_elements f r') as [[vs r'']|] eqn:E2; [|discriminate H].
    apply IHe in E2.
    apply (proj1 (proj2 (parse_fuel_le (2 * String.length r' + 3)
             (2 * String.length s + 2) ltac:(lia)))) in E2.
    now rewrite E2.
  - intros s x H.
    replace (2 * String.length s + 3)%nat
      with (S (2 * String.length s + 2)) by lia.
    rewrite parse_members_S in *. unfold member_after in *.
    destruct (skip_ws s) as [|q r0] eqn:E0; [discriminate H|].
    destruct (Ascii.eqb q quote); [|discriminate H].
    destruct (parse_chars r0) as [[k r1]|] eqn:E1; [|discriminate H].
    destruct (skip_ws r1) as [|c r2] eqn:E2; [discriminate H|].
    destruct (Ascii.eqb c ":"); [|discriminate H].
    destruct (parse_value f r2) as [[v r3]|] eqn:E3; [|discriminate H].
    pose proof (Cv _ _ _ E3) as Hlt.
    assert (H2 : (String.length r2 < String.length s)%nat) by (lengths; lia).
    apply IHv in E3.
    apply (proj1 (parse_fuel_le (2 * String.length r2 + 2)
             (2 * String.length s + 2) ltac:(lia))) in E3.
    rewrite E3.
    destruct (skip_ws r3) as [|c' r4] eqn:E4; [discriminate H|].
    destruct (Ascii.eqb c' ","); [|exact H].
    destruct (parse_members f r4) as [[ms r5]|] eqn:E5; [|discriminate H].
    assert (H4 : (String.length r4 < String.length r3)%nat) by (lengths; lia).
    apply IHm in E5.
    apply (proj2 (proj2 (parse_fuel_le (2 * String.length r4 + 3)
             (2 * String.length s + 2) ltac:(lia)))) in E5.
    now rewrite E5.
Qed.

(** [parse] accepts every text that some amount of fuel parses to the end:
    it rejects a text for its syntax only. *)
Lemma parse_complete s f v r :
  parse_value f s = Some (v, r) -> skip_ws r = EmptyString -> parse s = Some v.
Proof.
  intros H Hr. unfold parse, fuel_for.
  apply (proj1 (parse_fuel_enough f)) in H.
  now rewrite H, Hr.
Qed.

(** *** Numbers read back *)

Lemma parse_value_number_start f c r :
  number_start c = true ->
  parse_value (S f) (String c r) = parse_number (String c r).
Proof.
  destruct c as [[|] [|] [|] [|] [|] [|] [|] [|]];
    intros H; try discriminate H; reflexivity.
Qed.

Lemma number_start_plain c :
  number_start c = true -> is_ws c = false /\ Ascii.eqb c "]" = false.
Proof.
  destruct c as [[|] [|] [|] [|] [|] [|] [|] [|]];
    intros H; try discriminate H; split; reflexivity.
Qed.

Lemma take_digits_delimited s : delimited s -> take_digits s = (Nil, s).
Proof.
  destruct s as [|c r]; [reflexivity|].
  intros (H & _). simpl. now rewrite H.
Qed.

Lemma take_digits_string_of_uint u rest :
  delimited rest ->
  take_digits (NilEmpty.string_of_uint u +:+ rest) = (u, rest).
Proof.
  intros H. induction u; simpl; rewrite ?IHu; auto using take_digits_delimited.
Qed.

Lemma parse_frac_delimited s : delimited s -> parse_frac s = Some (Nil, s).
Proof.
  destruct s as [|c r]; [reflexivity|].
  intros (_ & H & _). simpl. now rewrite H.
Qed.

Lemma parse_exp_delimited s : delimited s -> parse_exp s = Some (0, s).
Proof.
  destruct s as [|c r]; [reflexivity|].
  intros (_ & _ & H1 & H2). simpl. now rewrite H1, H2.
Qed.

(** The decimal numeral of a positive number has no leading zero. *)
Lemma to_uint_head p : forall d, Pos.to_uint p <> D0 d.
Proof.
  intros d H.
  pose proof (DecimalPos.Unsigned.to_of (Pos.to_uint p)) as E.
  rewrite DecimalPos.Unsigned.of_to in E. simpl in E.
  unfold unorm in E.
  destruct (nzhead (Pos.to_uint p)) eqn:Hn;
    try (rewrite H in E; discriminate E).
  - now apply (DecimalPos.Unsigned.to_uint_nonzero p).
  - rewrite E in H. injection H as ->. now apply nzhead_nonzero in Hn.
Qed.

Lemma digits_start u :
  u <> Nil ->
  exists c r, NilEmpty.string_of_uint u = String c r /\ digit_of_char c <> None
              /\ Ascii.eqb c "-" = false.
Proof.
  destruct u; [congruence| ..]; intros _; simpl; eexists _, _;
    (split; [reflexivity|]); (split; [discriminate|reflexivity]).
Qed.

Lemma parse_number_digits u rest :
  u <> Nil -> leading_zero u = false -> delimited rest ->
  parse_number (NilEmpty.string_of_uint u +:+ rest)
  = Some (JNumber (Z.of_uint u) 0, rest)
  /\ parse_number (String "-" (NilEmpty.string_of_uint u +:+ rest))
     = Some (JNumber (- Z.of_uint u) 0, rest).
Proof.
  intros Hu Hz Hr.
  assert (Hn : is_nil u = false) by (destruct u; [congruence|reflexivity..]).
  split.
  - destruct (digits_start u Hu) as (c & r & E & _ & Hm).
    unfold parse_number.
    replace (match NilEmpty.string_of_uint u +:+ rest with
             | String c0 r0 => if Ascii.eqb c0 "-" then (true, r0)
                               else (false, NilEmpty.string_of_uint u +:+ rest)
             | EmptyString => (false, NilEmpty.string_of_uint u +:+ rest)
             end) with (false, NilEmpty.string_of_uint u +:+ rest)
      by (rewrite E; simpl; now rewrite Hm).
    rewrite take_digits_string_of_uint, Hn, Hz by assumption. simpl.
    rewrite parse_frac_delimited, parse_exp_delimited by assumption.
    now rewrite DecimalFacts.app_nil_r.
  - unfold parse_number. simpl.
    rewrite take_digits_string_of_uint, Hn, Hz by assumption. simpl.
    rewrite parse_frac_delimited, parse_exp_delimited by assumption.
    now rewrite DecimalFacts.app_nil_r.
Qed.

(** [stringify_number] writes an optional sign and a numeral without
    leading zero. *)
Lemma stringify_number_cases z :
  exists u, u <> Nil /\ leading_zero u = false /\
    ((stringify_number z = NilEmpty.string_of_uint u /\ z = Z.of_uint u) \/
     (stringify_number z = String "-" (NilEmpty.string_of_uint u)
      /\ z = - Z.of_uint u)).
Proof.
  unfold stringify_number.
  destruct z as [|p|p]; simpl.
  - exists (D0 Nil). repeat split; [congruence|]. now left.
  - exists (Pos.to_uint p).
    pose proof (DecimalPos.Unsigned.to_uint_nonnil p) as Hn.
    pose proof (to_uint_head p) as Hh.
    split; [assumption|]. split.
    + destruct (Pos.to_uint p) eqn:E; try reflexivity. now destruct (Hh u).
    + left. split.
      * destruct (Pos.to_uint p); [congruence|reflexivity..].
      * unfold Z.of_uint. now rewrite DecimalPos.Unsigned.of_to.
  - exists (Pos.to_uint p).
    pose proof (DecimalPos.Unsigned.to_uint_nonnil p) as Hn.
    pose proof (to_uint_head p) as Hh.
    split; [assumption|]. split.
    + destruct (Pos.to_uint p) eqn:E; try reflexivity. now destruct (Hh u).
    + right. split.
      * destruct (Pos.to_uint p); [congruence|reflexivity..].
      * unfold Z.of_uint. now rewrite DecimalPos.Unsigned.of_to.
Qed.

Lemma parse_number_stringify z rest :
  delimited rest ->
  parse_number (stringify_number z +:+ rest) = Some (JNumber z 0, rest).
Proof.
  intros Hr.
  destruct (stringify_number_cases z) as (u & Hu & Hz & [[-> ->]|[-> ->]]).
  - now apply parse_number_digits.
  - now apply parse_number_digits.
Qed.

Lemma stringify_number_start z :
  exists c r, stringify_number z = String c r /\ number_start c = true.
Proof.
  destruct (stringify_number_cases z) as (u & Hu & _ & [[-> _]|[-> _]]).
  - destruct (digits_start u Hu) as (c & r & E & Hd & _).
    exists c, r. split; [assumption|]. unfold number_start.
    now destruct (digit_of_char c).
  - now eexists _, _.
Qed.

Lemma parse_value_stringify_number f z rest :
  delimited rest ->
  parse_value (S f) (stringify_number z +:+ rest) = Some (integer z, rest).
Proof.
  intros Hr.
  destruct (stringify_number_start z) as (c & r & E & Hc).
  unfold integer. rewrite <- (parse_number_stringify z rest Hr).
  rewrite E. simpl. now apply parse_value_number_start.
Qed.

(** *** Records read back *)

Lemma append_assoc (a b c : string) : (a +:+ b) +:+ c = a +:+ (b +:+ c).
Proof.
  induction a as [|x a IH]; [reflexivity|].
  change (String x ((a +:+ b) +:+ c) = String x (a +:+ b +:+ c)).
  now rewrite IH.
Qed.

Lemma delimited_comma r : delimited (String "," r).
Proof. now repeat split. Qed.

Lemma delimited_bracket r : delimited (String "]" r).
Proof. now repeat split. Qed.

Lemma delimited_brace r : delimited (String "}" r).
Proof. now repeat split. Qed.

Lemma parse_elements_numbers l : forall z f rest,
  (length l < f)%nat ->
  parse_elements (S f) (stringify_numbers (z :: l) +:+ String "]" rest)
  = Some (map integer (z :: l), rest).
Proof.
  induction l as [|z' l IH]; intros z f rest Hf;
    (destruct f as [|f]; [simpl in Hf; lia|]); rewrite parse_elements_S.
  - cbn [stringify_numbers].
    now rewrite parse_value_stringify_number by apply delimited_bracket.
  - change (stringify_numbers (z :: z' :: l))
      with (stringify_number z +:+ "," +:+ stringify_numbers (z' :: l)).
    rewrite append_assoc.
    rewrite parse_value_stringify_number by apply delimited_comma.
    rewrite append_assoc.
    change ("," +:+ ?x) with (String "," x).
    change (skip_ws (String "," ?x)) with (String "," x).
    change (Ascii.eqb "," ",") with true. cbv iota.
    change (EmptyString +:+ ?x) with x.
    rewrite IH by (simpl in Hf; lia).
    reflexivity.
Qed.

Lemma stringify_numbers_start z l :
  exists c r, stringify_numbers (z :: l) = String c r /\ number_start c = true.
Proof.
  destruct (stringify_number_start z) as (c & r & E & Hc).
  destruct l as [|z' l].
  - now exists c, r.
  - change (stringify_numbers (z :: z' :: l))
      with (stringify_number z +:+ "," +:+ stringify_numbers (z' :: l)).
    rewrite E. now eexists _, _.
Qed.

Lemma parse_value_array l f rest :
  (length l < f)%nat ->
  parse_value (S f) (String "[" (stringify_numbers l +:+ String "]" rest))
  = Some (JArray (map integer l), rest).
Proof.
  intros Hf. destruct l as [|z l]; [reflexivity|].
  destruct f as [|f]; [simpl in Hf; lia|].
  pose proof (parse_elements_numbers l z f rest) as He.
  destruct (stringify_numbers_start z l) as (c & r & E & Hc).
  destruct (number_start_plain c Hc) as [Hw Hb].
  rewrite E in *.
  change (String c r +:+ String "]" rest) with (String c (r +:+ String "]" rest)) in *.
  rewrite parse_value_S.
  change (skip_ws (String "[" ?x)) with (String "[" x).
  change (Ascii.eqb "[" "[") with true. cbv iota.
  cbn [skip_ws]. rewrite Hw, Hb.
  rewrite He by (simpl in Hf; lia). reflexivity.
Qed.

Lemma stringify_eq l rt :
  stringify l rt =
  String "{" (String quote ("requests" +:+ String quote (String ":"
    (String "[" (stringify_numbers l +:+ String "]" (String ","
      (String quote ("resetTime" +:+ String quote (String ":"
        (stringify_number rt +:+ "}")))))))))).
Proof. reflexivity. Qed.

Lemma parse_value_object f r :
  parse_value (S f) (String "{" (String quote r)) =
  match parse_members f (String quote r) with
  | Some (ms, r'') => Some (JObject ms, r'')
  | None => None
  end.
Proof. reflexivity. Qed.

Lemma parse_members_requests f r :
  parse_members (S f) (String quote ("requests" +:+ String quote (String ":" r)))
  = member_after f (code_units "requests") r.
Proof. reflexivity. Qed.

Lemma parse_members_resetTime f r :
  parse_members (S f) (String quote ("resetTime" +:+ String quote (String ":" r)))
  = member_after f (code_units "resetTime") r.
Proof. reflexivity. Qed.

Lemma parse_value_stringify l rt f :
  (length l < f)%nat ->
  parse_value (S (S (S f))) (stringify l rt) = Some (object_of l rt, EmptyString).
Proof.
  intros Hf. rewrite stringify_eq, parse_value_object, parse_members_requests.
  unfold member_after.
  rewrite parse_value_array by assumption.
  change (skip_ws (String "," ?x)) with (String "," x).
  change (Ascii.eqb "," ",") with true. cbv iota.
  rewrite parse_members_resetTime. unfold member_after.
  destruct f as [|f]; [lia|].
  rewrite parse_value_stringify_number by apply delimited_brace.
  reflexivity.
Qed.

Lemma parse_stringify l rt : parse (stringify l rt) = Some (object_of l rt).
Proof.
  apply (parse_complete _ (S (S (S (S (length l))))) _ EmptyString);
    [|reflexivity].
  apply parse_value_stringify. lia.
Qed.

Lemma to_integer_0 z : to_integer z 0 = Some z.
Proof. unfold to_integer. cbn. now rewrite Z.mul_1_r. Qed.

Lemma integers_map l : integers (map integer l) = Some l.
Proof.
  induction l as [|z l IH]; [reflexivity|].
  cbn [map integers integer]. now rewrite IH, to_integer_0.
Qed.

Lemma property_object_of l rt :
  property (object_of l rt) "requests" = Value (Some (JArray (map integer l)))
  /\ property (object_of l rt) "resetTime" = Value (Some (integer rt)).
Proof.
  unfold object_of, property. cbn [get].
  split; repeat case_decide; try reflexivity;
    match goal with
    | H : code_units _ = code_units _ |- _ => vm_compute in H; discriminate H
    | H : code_units _ <> code_units _ |- _ => now destruct H
    end.
Qed.

End JSONFacts.

(** What [saveToStorage] writes, [loadFromStorage] reads back. *)
Lemma deserialize_serialize d : deserialize (serialize d) = Some d.
Proof.
  destruct d as [l rt]. unfold deserialize, serialize.
  cbn [Data.requests Data.resetTime].
  rewrite parse_stringify.
  destruct (property_object_of l rt) as [-> ->].
  rewrite integers_map. unfold integer. now rewrite to_integer_0.
Qed.

(** ** The operations of the hook *)

Section Facts.

Variable config : RateLimitConfig.

Lemma same_storage_refl w : same_storage w w.
Proof. now repeat split. Qed.

Lemma same_storage_trans w1 w2 w3 :
  same_storage w1 w2 -> same_storage w2 w3 -> same_storage w1 w3.
Proof.
  unfold same_storage. intros (?&?&?&?) (?&?&?&?). repeat split; congruence.
Qed.

Lemma same_storage_tick w : same_storage w (tick w).
Proof. now repeat split. Qed.

Lemma same_storage_log l w : same_storage w (log l w).
Proof. now repeat split. Qed.

Lemma same_storage_render s w : same_storage w (render s w).
Proof. now repeat split. Qed.

Lemma storage_typed_same w w' :
  same_storage w w' -> storage_typed config w' = storage_typed config w.
Proof. intros (E & _). unfold storage_typed. now rewrite E. Qed.

Lemma persisted_same w w' d :
  same_storage w w' -> persisted config w d -> persisted config w' d.
Proof.
  intros (E & Ed & _) (Hd & text & H & Ht).
  split; [congruence|]. exists text. now rewrite E.
Qed.

Lemma persisted_store w rs rt :
  storage_denied w = false ->
  persisted config
    (store (effectiveStorageKey config) (JSON.stringify rs rt) w)
    (Data.make rs rt).
Proof.
  intros Hd. split; [exact Hd|].
  eexists. split; [apply lookup_insert_eq|].
  apply (deserialize_serialize (Data.make rs rt)).
Qed.

Lemma persisted_typed w d :
  persisted config w d -> storage_typed config w = true.
Proof.
  intros (_ & text & H & Hd). unfold storage_typed. rewrite H.
  unfold deserialize in Hd. destruct (JSON.parse text) as [data|]; [|reflexivity].
  unfold typed.
  destruct (property data "requests") as [[[]|]| |]; try discriminate Hd.
  destruct (property data "resetTime") as [[[]|]| |]; try discriminate Hd.
  cbn [number].
  destruct (JSON.integers elements); [|discriminate Hd].
  destruct (JSON.to_integer m e); [reflexivity|discriminate Hd].
Qed.

(** *** [loadFromStorage], case by case *)

Lemma loadFromStorage_absent w :
  storage_denied w = false ->
  localStorage w !! effectiveStorageKey config = None
  \/ localStorage w !! effectiveStorageKey config = Some EmptyString ->
  loadFromStorage config w
  = (Value (new_window config (clock w (ticks w))), tick w).
Proof.
  intros Hd [H|H]; run; now rewrite Hd, H.
Qed.

Lemma loadFromStorage_denied w :
  storage_denied w = true ->
  loadFromStorage config w
  = (Value (new_window config (clock w (ticks w))),
     tick (log "Error loading rate limit data: SecurityError" w)).
Proof. intros Hd; run; now rewrite Hd. Qed.

Lemma loadFromStorage_unparsable w text :
  storage_denied w = false ->
  localStorage w !! effectiveStorageKey config = Some text ->
  text <> EmptyString -> JSON.parse text = None ->
  loadFromStorage config w
  = (Value (new_window config (clock w (ticks w))),
     tick (log "Error loading rate limit data: SyntaxError" w)).
Proof.
  intros Hd H Hn Hp; run. rewrite Hd, H.
  destruct text as [|c s]; [congruence|]. now rewrite Hp.
Qed.

Lemma loadFromStorage_record w d :
  persisted config w d ->
  loadFromStorage config w
  = (Value (if clock w (ticks w) >=? Data.resetTime d
            then new_window config (clock w (ticks w))
            else live config (clock w (ticks w)) d), tick w).
Proof.
  intros (Hd & text & H & Hp); run. rewrite Hd, H.
  destruct text as [|c s]; [discriminate Hp|].
  unfold deserialize in Hp.
  destruct (JSON.parse (String c s)) as [data|]; [|discriminate Hp].
  destruct (property data "requests") as [[[]|]| |]; try discriminate Hp.
  destruct (property data "resetTime") as [[[]|]| |]; try discriminate Hp.
  cbn [number array_filter].
  destruct (JSON.integers elements) as [rs|]; [|discriminate Hp].
  destruct (JSON.to_integer m e) as [rt|]; [|discriminate Hp].
  injection Hp as <-. cbn [ge_number Data.resetTime Data.requests].
  now destruct (_ >=? _).
Qed.

Lemma filter_all {A} (p : A -> bool) (l : list A) :
  Forall (fun x => p x = true) l -> List.filter p l = l.
Proof.
  induction 1 as [|x l Hx _ IH]; [reflexivity|].
  cbn. rewrite Hx. now rewrite IH.
Qed.

Lemma loadFromStorage_live w d :
  persisted config w d ->
  clock w (ticks w) < Data.resetTime d ->
  Forall (fun t => clock w (ticks w) - t < windowMs config) (Data.requests d) ->
  loadFromStorage config w = (Value d, tick w).
Proof.
  intros Hp Hlt Hall.
  rewrite (loadFromStorage_record w d Hp).
  destruct (Z.geb_spec (clock w (ticks w)) (Data.resetTime d)); [lia|].
  unfold live. rewrite filter_all; [now destruct d|].
  eapply Forall_impl; [exact Hall|]. intros t Ht'; cbn in *. lia.
Qed.

(** [loadFromStorage] catches every exception, reads the clock once or
    twice, and leaves the store and the hook's state alone. *)
Lemma loadFromStorage_frame w o w1 :
  loadFromStorage config w = (o, w1) ->
  same_storage w w1 /\ state w1 = state w
  /\ (ticks w < ticks w1 <= ticks w + 2)%nat /\ forall e, o <> Throws e.
Proof.
  run. cases; intros [= <- <-]; unfold same_storage; cbn;
    repeat split; try lia; congruence.
Qed.

(** On a typed store [loadFromStorage] returns a record. *)
Lemma loadFromStorage_total w :
  storage_typed config w = true ->
  exists d w1, loadFromStorage config w = (Value d, w1).
Proof.
  unfold storage_typed, typed. run.
  unfold array_filter, number, ge_number, property.
  cases; intros H; try discriminate H; simplify_eq; eauto; congruence.
Qed.

(** *** The other operations, in terms of [loadFromStorage] *)

Lemma saveToStorage_eq requests resetTime w :
  saveToStorage config requests resetTime w
  = (Value tt, saved config requests resetTime w).
Proof.
  unfold saved. run. now destruct (storage_denied w), (storage_full w).
Qed.

Lemma saved_typed rs rt w :
  storage_typed config w = true ->
  storage_typed config (saved config rs rt w) = true.
Proof.
  intros Ht. unfold saved.
  destruct (storage_denied w) eqn:Hd; [exact Ht|].
  destruct (storage_full w); [exact Ht|].
  eapply persisted_typed, persisted_store, Hd.
Qed.

Lemma updateState_eq w d w1 :
  loadFromStorage config w = (Value d, w1) ->
  updateState config w
  = (Value tt, render (derive config d (clock w1 (ticks w1))) (tick w1)).
Proof.
  intros H. unfold updateState, bind. rewrite H. reflexivity.
Qed.

Lemma updateState_frame w o w' :
  updateState config w = (o, w') -> same_storage w w'.
Proof.
  intros H.
  destruct (loadFromStorage config w) as [o1 w1] eqn:Hl.
  destruct (loadFromStorage_frame w o1 w1 Hl) as (Hs & _).
  destruct o1 as [d|e|].
  - rewrite (updateState_eq w d w1 Hl) in H. injection H as <- <-.
    eapply same_storage_trans; [exact Hs|]. now repeat split.
  - unfold updateState, bind in H. rewrite Hl in H. now injection H as <- <-.
  - unfold updateState, bind in H. rewrite Hl in H. now injection H as <- <-.
Qed.

Lemma updateState_total w :
  storage_typed config w = true ->
  exists d w1, loadFromStorage config w = (Value d, w1)
    /\ updateState config w
       = (Value tt, render (derive config d (clock w1 (ticks w1))) (tick w1)).
Proof.
  intros Ht. destruct (loadFromStorage_total w Ht) as (d & w1 & Hl).
  exists d, w1. split; [assumption|]. now apply updateState_eq.
Qed.

Lemma recordRequest_eq w d w1 :
  loadFromStorage config w = (Value d, w1) ->
  recordRequest config w
  = if Z.of_nat (length (Data.requests d)) >=? maxRequests config
    then bind (updateState config) (fun _ => ret false) (tick w1)
    else bind (updateState config) (fun _ => ret true)
           (saved config (Data.requests d ++ [clock w1 (ticks w1)])%list
                  (Data.resetTime d) (tick w1)).
Proof.
  intros H. unfold recordRequest. unfold bind at 1. rewrite H.
  unfold bind at 1. unfold Date_now at 1.
  destruct (_ >=? _); [reflexivity|].
  unfold bind at 1. now rewrite saveToStorage_eq.
Qed.

(** On a typed store [recordRequest] returns, accepting exactly when the
    loaded record is short of the limit; a rejected request leaves the
    store alone. *)
Lemma recordRequest_total w :
  storage_typed config w = true ->
  exists d w1 w',
    loadFromStorage config w = (Value d, w1)
    /\ recordRequest config w
       = (Value (negb (Z.of_nat (length (Data.requests d)) >=? maxRequests config)),
          w')
    /\ (maxRequests config <= Z.of_nat (length (Data.requests d)) ->
        same_storage w w')
    /\ exists d' w2, state w' = derive config d' (clock w2 (ticks w2)).
Proof.
  intros Ht. destruct (loadFromStorage_total w Ht) as (d & w1 & Hl).
  destruct (loadFromStorage_frame w _ _ Hl) as (Hs & _).
  exists d, w1. rewrite (recordRequest_eq w d w1 Hl).
  destruct (Z.geb_spec (Z.of_nat (length (Data.requests d))) (maxRequests config)).
  - destruct (updateState_total (tick w1)) as (d' & w2 & _ & Hu).
    { rewrite <- Ht. apply storage_typed_same.
      eapply same_storage_trans; [exact Hs|apply same_storage_tick]. }
    unfold bind. rewrite Hu. eexists. split; [assumption|].
    split; [reflexivity|]. split; [|now exists d', w2].
    intros _. apply updateState_frame in Hu.
    eapply same_storage_trans; [exact Hs|].
    eapply same_storage_trans; [apply same_storage_tick|exact Hu].
  - set (w3 := saved _ _ _ _).
    destruct (updateState_total w3) as (d' & w2 & _ & Hu).
    { apply saved_typed. rewrite <- Ht. apply storage_typed_same.
      eapply same_storage_trans; [exact Hs|apply same_storage_tick]. }
    unfold bind. rewrite Hu. eexists. split; [assumption|].
    split; [reflexivity|]. split; [lia|now exists d', w2].
Qed.

(** No exception leaves [updateState] or [recordRequest]. *)
Lemma updateState_never_throws w e w' :
  updateState config w <> (Throws e, w').
Proof.
  unfold updateState, bind.
  destruct (loadFromStorage config w) as [o w1] eqn:Hl.
  destruct (loadFromStorage_frame w o w1 Hl) as (_ & _ & _ & Hn).
  destruct o; [discriminate|now destruct (Hn e0)|discriminate].
Qed.

Lemma recordRequest_never_throws w e w' :
  recordRequest config w <> (Throws e, w').
Proof.
  destruct (loadFromStorage config w) as [o w1] eqn:Hl.
  destruct (loadFromStorage_frame w o w1 Hl) as (_ & _ & _ & Hn).
  destruct o as [d|e0|].
  - rewrite (recordRequest_eq w d w1 Hl).
    destruct (_ >=? _); unfold bind;
      match goal with
      | |- context [updateState config ?x] =>
          pose proof (updateState_never_throws x) as Hu;
          destruct (updateState config x) as [[| |] ?]
      end; try discriminate; intros [= <- <-]; now eapply Hu.
  - now destruct (Hn e0).
  - unfold recordRequest, bind. rewrite Hl. discriminate.
Qed.

(** A record saved to a working store and loaded again before its window
    ends comes back, less the timestamps that are a window old. *)
Lemma save_then_load w rs rt :
  operational w -> clock w (ticks w) < rt ->
  loadFromStorage config (saved config rs rt w)
  = (Value (live config (clock w (ticks w)) (Data.make rs rt)),
     tick (saved config rs rt w)).
Proof.
  intros (Hd & Hf) Hlt. unfold saved. rewrite Hd, Hf.
  rewrite (loadFromStorage_record _ (Data.make rs rt))
    by (apply persisted_store; exact Hd).
  cbn [store clock ticks Data.resetTime].
  destruct (Z.geb_spec (clock w (ticks w)) rt); [lia|reflexivity].
Qed.

End Facts.

(** ** Requests in one window *)

Section Window.

Variable config : RateLimitConfig.
Variable w0 : World.
Variable deadline : Z.

Lemma recorded_start :
  operational w0 -> empty_history config w0 deadline ->
  recorded config w0 deadline 0 w0.
Proof.
  intros Ho He. split; [assumption|]. split; [reflexivity|].
  split; [lia|]. now split.
Qed.

(** What the first load of a call sees after [k] accepted requests. *)
Lemma recorded_load k w :
  recorded config w0 deadline k w ->
  within_window config w0 deadline (4 * k + 1) ->
  exists ts, loadFromStorage config w = (Value (Data.make ts deadline), tick w)
             /\ length ts = k
             /\ Forall (fun t => clock w0 (ticks w0) <= t) ts
             /\ (k <> O -> persisted config w (Data.make ts deadline)).
Proof.
  intros ((Hd & Hf) & Hc & Ht & Hk) Hw.
  destruct (Hw (ticks w0 + 4 * k)%nat ltac:(lia)) as [[Hlo Hhi] Hdl].
  destruct k as [|k].
  - destruct Hk as [[[Hn ->]|Hp] Hs]; exists [].
    + rewrite loadFromStorage_absent by (rewrite ?Hs; auto).
      rewrite Hc, Ht. replace (ticks w0 + 4 * 0)%nat with (ticks w0) by lia.
      now repeat split.
    + split; [|now repeat split].
      apply loadFromStorage_live.
      * destruct Hp as (_ & text & H & Hdes).
        split; [exact Hd|]. exists text. now rewrite Hs.
      * cbn. rewrite Hc, Ht. lia.
      * constructor.
  - destruct Hk as (ts & Hp & Hl & Hall & _). exists ts.
    split; [|split; [exact Hl|split; [exact Hall|intros _; exact Hp]]].
    apply loadFromStorage_live.
    + exact Hp.
    + cbn. rewrite Hc, Ht. lia.
    + cbn. rewrite Hc, Ht. eapply Forall_impl; [exact Hall|].
      intros t Ht'. cbn in *. lia.
Qed.

Lemma recorded_accept k w :
  recorded config w0 deadline k w -> Z.of_nat k < maxRequests config ->
  within_window config w0 deadline (4 * k + 4) ->
  exists w', recordRequest config w = (Value true, w')
             /\ recorded config w0 deadline (S k) w'.
Proof.
  intros Hr Hk Hw.
  destruct (recorded_load k w Hr) as (ts & Hl & Hlen & Hall & _).
  { intros i Hi. apply Hw. lia. }
  destruct Hr as ((Hd & Hf) & Hc & Ht & _).
  pose proof (Hw (S (ticks w0 + 4 * k)) ltac:(lia)) as [[Hlo1 Hhi1] Hdl1].
  pose proof (Hw (S (S (ticks w0 + 4 * k))) ltac:(lia)) as [[Hlo2 Hhi2] Hdl2].
  rewrite (recordRequest_eq config w _ _ Hl). cbn [Data.requests Data.resetTime].
  destruct (Z.geb_spec (Z.of_nat (length ts)) (maxRequests config)); [lia|].
  unfold saved. cbn [storage_denied storage_full tick ticks clock].
  rewrite Hd, Hf, Hc, Ht.
  set (now := clock w0 (S (ticks w0 + 4 * k))) in *.
  set (w2 := store _ _ _).
  assert (Hp2 : persisted config w2 (Data.make (ts ++ [now]) deadline))
    by (apply persisted_store; exact Hd).
  assert (Hall2 : Forall (fun t => clock w0 (ticks w0) <= t) (ts ++ [now])).
  { apply Forall_app. split; [assumption|]. constructor; [lia|constructor]. }
  assert (Hl2 : loadFromStorage config w2
                = (Value (Data.make (ts ++ [now]) deadline), tick w2)).
  { apply loadFromStorage_live; [exact Hp2|..];
      cbn; rewrite Hc, Ht; [assumption|].
    eapply Forall_impl; [exact Hall2|]. intros t ?; cbn in *. lia. }
  unfold bind. rewrite (updateState_eq config w2 _ _ Hl2).
  eexists. split; [reflexivity|].
  split; [split; assumption|]. split; [exact Hc|].
  split; [cbn; rewrite Ht; lia|].
  exists (ts ++ [now])%list. split; [exact Hp2|].
  rewrite length_app. cbn [length].
  split; [lia|]. split; [exact Hall2|].
  cbn. rewrite length_app. cbn [length].
  replace (Z.of_nat (length ts + 1)) with (Z.of_nat (S k)) by lia.
  auto.
Qed.

Lemma recorded_reject k w :
  recorded config w0 deadline (S k) w ->
  maxRequests config <= Z.of_nat (S k) ->
  within_window config w0 deadline (4 * S k + 4) ->
  exists w', recordRequest config w = (Value false, w')
             /\ same_storage w w'
             /\ remainingRequests (state w') = 0
             /\ canProceed (state w') = false.
Proof.
  intros Hr Hk Hw.
  destruct (recorded_load (S k) w Hr) as (ts & Hl & Hlen & Hall & Hp).
  { intros i Hi. apply Hw. lia. }
  destruct Hr as ((Hd & Hf) & Hc & Ht & _).
  pose proof (Hw (S (S (ticks w0 + 4 * S k))) ltac:(lia)) as [[Hlo2 Hhi2] Hdl2].
  rewrite (recordRequest_eq config w _ _ Hl). cbn [Data.requests Data.resetTime].
  destruct (Z.geb_spec (Z.of_nat (length ts)) (maxRequests config)); [|lia].
  assert (Hl2 : loadFromStorage config (tick (tick w))
                = (Value (Data.make ts deadline), tick (tick (tick w)))).
  { apply loadFromStorage_live.
    - eapply persisted_same; [|now apply Hp]. now repeat split.
    - cbn; rewrite Hc, Ht; assumption.
    - cbn; rewrite Hc, Ht.
      eapply Forall_impl; [exact Hall|]. intros t ?; cbn in *. lia. }
  unfold bind. rewrite (updateState_eq config _ _ _ Hl2).
  eexists. split; [reflexivity|]. split; [now repeat split|].
  cbn. rewrite Hlen. split.
  - lia.
  - apply Z.ltb_ge. lia.
Qed.

(** [k] accepted requests in succession. *)
Lemma recorded_run k : forall j w,
  recorded config w0 deadline j w ->
  Z.of_nat (j + k) <= maxRequests config ->
  within_window config w0 deadline (4 * (j + k)) ->
  exists w', recordRequests config k w = (Value (repeat true k), w')
             /\ recorded config w0 deadline (j + k) w'.
Proof.
  induction k as [|k IH]; intros j w Hr Hk Hw.
  - exists w. split; [reflexivity|]. now replace (j + 0)%nat with j by lia.
  - destruct (recorded_accept j w Hr) as (w1 & H1 & Hr1); [lia| |].
    { intros i Hi. apply Hw. lia. }
    destruct (IH (S j) w1 Hr1) as (w2 & H2 & Hr2); [lia| |].
    { intros i Hi. apply Hw. lia. }
    exists w2. split.
    + cbn [recordRequests]. unfold bind at 1. rewrite H1.
      unfold bind at 1. now rewrite H2.
    + now replace (j + S k)%nat with (S j + k)%nat by lia.
Qed.

(** [k] accepted requests up to the limit, then one more. *)
Lemma recorded_limit k : forall j w,
  recorded config w0 deadline j w ->
  Z.of_nat (j + k) = maxRequests config -> (0 < j + k)%nat ->
  within_window config w0 deadline (4 * (j + k + 1)) ->
  exists w', recordRequests config (k + 1) w
             = (Value (repeat true k ++ [false])%list, w').
Proof.
  induction k as [|k IH]; intros j w Hr Hk Hpos Hw.
  - destruct j as [|j]; [lia|].
    destruct (recorded_reject j w Hr) as (w1 & H1 & _); [lia| |].
    { intros i Hi. apply Hw. lia. }
    exists w1. cbn [recordRequests Nat.add]. unfold bind at 1. now rewrite H1.
  - destruct (recorded_accept j w Hr) as (w1 & H1 & Hr1); [lia| |].
    { intros i Hi. apply Hw. lia. }
    destruct (IH (S j) w1 Hr1) as (w2 & H2); [lia|lia| |].
    { intros i Hi. apply Hw. lia. }
    exists w2. cbn [recordRequests Nat.add]. unfold bind at 1. rewrite H1.
    unfold bind at 1. now rewrite H2.
Qed.

(** A refresh after [k] accepted requests. *)
Lemma recorded_refresh k w :
  recorded config w0 deadline k w ->
  within_window config w0 deadline (4 * k + 1) ->
  exists w', updateState config w = (Value tt, w')
             /\ remainingRequests (state w')
                = Z.max 0 (maxRequests config - Z.of_nat k)
             /\ resetTime (state w') = deadline.
Proof.
  intros Hr Hw.
  destruct (recorded_load k w Hr Hw) as (ts & Hl & Hlen & _).
  rewrite (updateState_eq config w _ _ Hl).
  eexists. split; [reflexivity|]. cbn. now rewrite Hlen.
Qed.

End Window.

(** ** Properties of the limiter *)

Section Refresh.

Variable config : RateLimitConfig.

(** Refreshes while the persisted record is in force: each reports the
    record as it is stored, and the time left at its own reading of the
    clock. *)
Lemma refreshes_in_force d n : forall w,
  persisted config w d ->
  (forall i, (ticks w <= i < ticks w + 2 * S n)%nat -> in_force config w d i) ->
  exists w', refreshes config (S n) w = (Value tt, w')
    /\ same_storage w w'
    /\ state w' = derive config d (clock w (ticks w + 2 * n + 1)).
Proof.
  induction n as [|n IH]; intros w Hp Hf.
  - destruct (Hf (ticks w) ltac:(lia)) as [Hlt Hall].
    pose proof (loadFromStorage_live config w d Hp Hlt Hall) as Hl.
    cbn [refreshes]. unfold bind. rewrite (updateState_eq config w d _ Hl).
    eexists. split; [reflexivity|]. split; [now repeat split|].
    cbn. now replace (ticks w + 0 + 1)%nat with (S (ticks w)) by lia.
  - destruct (Hf (ticks w) ltac:(lia)) as [Hlt Hall].
    pose proof (loadFromStorage_live config w d Hp Hlt Hall) as Hl.
    set (w1 := render (derive config d (clock (tick w) (ticks (tick w))))
                      (tick (tick w))).
    destruct (IH w1) as (w' & Hr & Hs & Hst).
    + eapply persisted_same; [|exact Hp]. now repeat split.
    + intros i Hi. apply Hf. cbn in Hi. lia.
    + exists w'. split; [|split].
      * change (refreshes config (S (S n)) w)
          with (bind (updateState config) (fun _ => refreshes config (S n)) w).
        unfold bind at 1. rewrite (updateState_eq config w d _ Hl). exact Hr.
      * eapply same_storage_trans; [|exact Hs]. now repeat split.
      * rewrite Hst. cbn. f_equal. f_equal. f_equal. lia.
Qed.

End Refresh.

(** The scenario of the specification: three requests at [t = 0, 1, 2] are
    accepted, a fourth at [t = 3] is rejected, and one at [t = 300001],
    after the window, is accepted and leaves two. *)
Example scenario :
  let w := world ∅ false false
             (fun n => match Nat.div n 4 with
                       | 0%nat => 0 | 1%nat => 1 | 2%nat => 2 | 3%nat => 3
                       | _ => 300001
                       end) in
  let r := recordRequests feedback 5 w in
  fst r = Value [true; true; true; false; true]
  /\ remainingRequests (state (snd r)) = 2.
Proof. vm_compute. split; reflexivity. Qed.

(** C1: with [maxRequests = N > 0], a store that works and nothing on
    record, [N] calls of [recordRequest] in succession within one window
    all return [true], and the next call in that window returns [false].
    Each call reads the clock four times: the [N + 1] calls make
    [4 * (N + 1)] readings. *)
Theorem recordRequest_limit config w deadline (N : nat) :
  maxRequests config = Z.of_nat N -> (0 < N)%nat ->
  operational w -> empty_history config w deadline ->
  within_window config w deadline (4 * (N + 1)) ->
  exists w', recordRequests config (N + 1) w
             = (Value (repeat true N ++ [false])%list, w').
Proof.
  intros HN Hpos Ho He Hw.
  apply (recorded_limit config w deadline N 0 w).
  - now apply recorded_start.
  - cbn. lia.
  - cbn. lia.
  - exact Hw.
Qed.

(** [recordRequest_limit] at a sample world. *)
Lemma recordRequest_limit_witness :
  exists w', recordRequests feedback (3 + 1) (world ∅ false false (ticking 1000))
             = (Value (repeat true 3 ++ [false])%list, w').
Proof.
  apply (recordRequest_limit feedback (world ∅ false false (ticking 1000)) 301000 3).
  - reflexivity.
  - lia.
  - split; reflexivity.
  - left. split; reflexivity.
  - intros i Hi. unfold ticking. cbn in *. lia.
Defined.

(** C2, as stated, fails: with nothing on record every refresh opens a
    window at its own reading of the clock, so two refreshes a second
    apart report different [resetTime]s. *)
Lemma refresh_moves_resetTime :
  let w := world ∅ false false (fun n => 1000 * Z.of_nat n) in
  fst (refreshes feedback 2 w) = Value tt
  /\ resetTime (state (snd (refreshes feedback 1 w))) = 300000
  /\ resetTime (state (snd (refreshes feedback 2 w))) = 302000
  /\ resetTime (state (snd (refreshes feedback 2 w)))
     <> resetTime (state (snd (refreshes feedback 1 w))).
Proof. vm_compute. repeat split; try reflexivity. discriminate. Qed.

(** C2, amended: while the persisted record is in force (its window has
    not ended and none of its timestamps is a window old), repeated
    refreshes without a [recordRequest] in between leave the store alone
    and report the same [remainingRequests] and [resetTime]; as the clock
    advances [timeUntilReset] only decreases, and never below [0]. *)
Theorem refresh_stable config w d (n m : nat) :
  persisted config w d ->
  (n <= m)%nat ->
  (forall i, (ticks w <= i < ticks w + 2 * S m)%nat -> in_force config w d i) ->
  clock w (ticks w + 2 * n + 1) <= clock w (ticks w + 2 * m + 1) ->
  exists wn wm,
    refreshes config (S n) w = (Value tt, wn)
    /\ refreshes config (S m) w = (Value tt, wm)
    /\ localStorage wm = localStorage w
    /\ remainingRequests (state wm) = remainingRequests (state wn)
    /\ resetTime (state wm) = resetTime (state wn)
    /\ 0 <= timeUntilReset (state wm) <= timeUntilReset (state wn).
Proof.
  intros Hp Hnm Hf Hclock.
  destruct (refreshes_in_force config d n w Hp) as (wn & Hn & _ & Hsn).
  { intros i Hi. apply Hf. lia. }
  destruct (refreshes_in_force config d m w Hp Hf) as (wm & Hm & (Hs & _) & Hsm).
  exists wn, wm. rewrite Hsn, Hsm. unfold derive.
  cbn [remainingRequests resetTime timeUntilReset]. repeat split; auto; lia.
Qed.

(** [refresh_stable] at a sample world. *)
Lemma refresh_stable_witness :
  let w := world (holding [1000; 2000] 301000) false false (ticking 3000) in
  exists wn wm,
    refreshes feedback 1 w = (Value tt, wn)
    /\ refreshes feedback 2 w = (Value tt, wm)
    /\ localStorage wm = localStorage w
    /\ remainingRequests (state wm) = remainingRequests (state wn)
    /\ resetTime (state wm) = resetTime (state wn)
    /\ 0 <= timeUntilReset (state wm) <= timeUntilReset (state wn).
Proof.
  apply (refresh_stable feedback
           (world (holding [1000; 2000] 301000) false false (ticking 3000))
           (Data.make [1000; 2000] 301000) 0 1).
  - holds (JSON.stringify [1000; 2000] 301000).
  - lia.
  - intros i Hi. unfold in_force, ticking. cbn in *.
    split; [lia|]. repeat constructor; lia.
  - unfold ticking. cbn. lia.
Defined.

(** C3, as stated, fails: when the write fails the request is accepted
    but the refresh that follows reads the store again, where the request
    is not; of three requests three remain, not two. *)
Lemma failed_write_not_counted :
  let r := recordRequest feedback (world ∅ false true (ticking 1000)) in
  fst r = Value true
  /\ remainingRequests (state (snd r)) = 3
  /\ remainingRequests (state (snd r)) <> maxRequests feedback - 1
  /\ canProceed (state (snd r)) = true.
Proof. vm_compute. repeat split; try reflexivity. discriminate. Qed.

(** C3, amended: when the loaded record is short of the limit and the
    write fails, [recordRequest] throws nothing and returns [true], the
    failure is logged, the store is unchanged, and the state is the one a
    refresh derives from that unchanged store: it does not count the
    attempted request. *)
Theorem failed_write_is_swallowed config w d w1 :
  storage_typed config w = true -> write_fails w ->
  loadFromStorage config w = (Value d, w1) ->
  Z.of_nat (length (Data.requests d)) < maxRequests config ->
  exists line d' w2 w',
    recordRequest config w = (Value true, w')
    /\ localStorage w' = localStorage w
    /\ String.prefix "Error saving rate limit data:" line = true
    /\ In line (console w')
    /\ loadFromStorage config (log line (tick w1)) = (Value d', w2)
    /\ state w' = derive config d' (clock w2 (ticks w2))
    /\ (Data.requests d' = Data.requests d ->
        remainingRequests (state w')
        = maxRequests config - Z.of_nat (length (Data.requests d))).
Proof.
  intros Ht Hw Hl Hlt.
  destruct (loadFromStorage_frame config w _ _ Hl) as (Hs & _).
  rewrite (recordRequest_eq config w d w1 Hl).
  destruct (Z.geb_spec (Z.of_nat (length (Data.requests d))) (maxRequests config));
    [lia|].
  set (now := clock w1 (ticks w1)).
  assert (Hsaved : exists line,
             saved config (Data.requests d ++ [now]) (Data.resetTime d) (tick w1)
             = log line (tick w1)
             /\ String.prefix "Error saving rate limit data:" line = true).
  { unfold saved. destruct Hs as (_ & Hd & Hf & _).
    cbn [storage_denied storage_full tick].
    rewrite Hd, Hf. destruct Hw as [-> | ->].
    - eexists. split; reflexivity.
    - destruct (storage_denied w); eexists; split; reflexivity. }
  destruct Hsaved as (line & -> & Hline).
  assert (Hs2 : same_storage w (log line (tick w1))).
  { eapply same_storage_trans; [exact Hs|]. now repeat split. }
  destruct (loadFromStorage_total config (log line (tick w1))) as (d' & w2 & Hl2).
  { rewrite <- Ht. now apply storage_typed_same. }
  destruct (loadFromStorage_frame config _ _ _ Hl2) as (Hs3 & _).
  exists line, d', w2. unfold bind. rewrite (updateState_eq config _ _ _ Hl2).
  eexists. split; [reflexivity|].
  assert (Hc : console w2 = console (log line (tick w1)) \/
               exists l, console w2 = (console (log line (tick w1)) ++ [l])%list).
  { clear - Hl2. revert Hl2. run. cases; intros [= <- <-]; cbn; eauto. }
  repeat split; auto.
  - cbn. destruct Hs3 as (-> & _). now destruct Hs2.
  - cbn. destruct Hc as [-> | (l & ->)]; cbn; rewrite ?in_app_iff; cbn; auto.
  - intros E. cbn. rewrite E. lia.
Qed.

(** [failed_write_is_swallowed] at a sample world. *)
Lemma failed_write_is_swallowed_witness :
  let w := world ∅ false true (ticking 1000) in
  exists line d' w2 w',
    recordRequest feedback w = (Value true, w')
    /\ localStorage w' = localStorage w
    /\ String.prefix "Error saving rate limit data:" line = true
    /\ In line (console w')
    /\ loadFromStorage feedback (log line (tick (tick w))) = (Value d', w2)
    /\ state w' = derive feedback d' (clock w2 (ticks w2))
    /\ (Data.requests d' = Data.requests (new_window feedback 1000) ->
        remainingRequests (state w')
        = maxRequests feedback
          - Z.of_nat (length (Data.requests (new_window feedback 1000)))).
Proof.
  apply (failed_write_is_swallowed feedback
           (world ∅ false true (ticking 1000))
           (new_window feedback 1000)
           (tick (world ∅ false true (ticking 1000)))).
  - reflexivity.
  - right. reflexivity.
  - reflexivity.
  - cbn. lia.
Defined.

(** C4, as stated, fails: with [maxRequests = 0] and nothing stored, a
    refresh reports [canProceed = false]. *)
Lemma refresh_of_closed_limiter :
  let r := updateState closed (world ∅ false false (ticking 1000)) in
  fst r = Value tt
  /\ canProceed (state (snd r)) = false
  /\ canProceed (state (snd r)) <> true.
Proof. vm_compute. repeat split; try reflexivity. discriminate. Qed.

(** C4, amended: if the text under the key is absent or is not JSON, a
    refresh throws nothing, leaves the store alone and reports the state
    of an unused limiter: [remainingRequests = max 0 maxRequests],
    [canProceed] exactly when [maxRequests > 0], and
    [resetTime = now + windowMs]. *)
Theorem refresh_recovers config w :
  unreadable config w ->
  exists w',
    updateState config w = (Value tt, w')
    /\ localStorage w' = localStorage w
    /\ state w' = unused config (clock w (ticks w)) (clock w (S (ticks w)))
    /\ remainingRequests (state w') = Z.max 0 (maxRequests config)
    /\ canProceed (state w') = (0 <? maxRequests config)
    /\ resetTime (state w') = clock w (ticks w) + windowMs config.
Proof.
  unfold unreadable. intros Hu.
  assert (Hl : exists w1, loadFromStorage config w
                 = (Value (new_window config (clock w (ticks w))), tick w1)
                 /\ same_storage w w1 /\ clock w1 = clock w /\ ticks w1 = ticks w).
  { destruct (storage_denied w) eqn:Hd.
    - eexists. split; [now apply loadFromStorage_denied|]. now repeat split.
    - destruct (localStorage w !! effectiveStorageKey config) as [text|] eqn:Hs.
      + destruct text as [|c s].
        * exists w. split; [apply loadFromStorage_absent; auto|now repeat split].
        * eexists. split;
            [now apply (loadFromStorage_unparsable config w (String c s))|].
          now repeat split.
      + exists w. split; [apply loadFromStorage_absent; auto|now repeat split]. }
  destruct Hl as (w1 & Hl & (Hs & _) & Hc & Ht).
  rewrite (updateState_eq config w _ _ Hl).
  eexists. split; [reflexivity|]. cbn. rewrite Hc, Ht.
  repeat split; auto.
  - now rewrite Z.sub_0_r.
  - rewrite Z.sub_0_r. destruct (Z.ltb_spec 0 (maxRequests config)).
    + apply Z.ltb_lt. lia.
    + apply Z.ltb_ge. lia.
Qed.

(** [refresh_recovers] at a sample world. *)
Lemma refresh_recovers_witness :
  let w := world {[ "feedbackRateLimit" := "{oops" ]} false false (ticking 1000) in
  exists w',
    updateState feedback w = (Value tt, w')
    /\ localStorage w' = localStorage w
    /\ state w' = unused feedback (clock w (ticks w)) (clock w (S (ticks w)))
    /\ remainingRequests (state w') = Z.max 0 (maxRequests feedback)
    /\ canProceed (state w') = (0 <? maxRequests feedback)
    /\ resetTime (state w') = clock w (ticks w) + windowMs feedback.
Proof.
  apply (refresh_recovers feedback
           (world {[ "feedbackRateLimit" := "{oops" ]} false false (ticking 1000))).
  vm_compute. reflexivity.
Defined.

(** C5, as stated, fails: with [maxRequests = 0] the window rolls over
    but the request that follows is rejected. *)
Lemma rollover_of_closed_limiter :
  let w := world {[ "rateLimit_closed" := JSON.stringify [] 500 ]}
                 false false (ticking 1000) in
  persisted closed w (Data.make [] 500)
  /\ 500 <= clock w (ticks w)
  /\ fst (updateState closed w) = Value tt
  /\ fst (recordRequest closed (snd (updateState closed w))) = Value false
  /\ fst (recordRequest closed (snd (updateState closed w))) <> Value true.
Proof.
  split; [|vm_compute; repeat split; discriminate].
  holds (JSON.stringify [] 500).
Qed.

(** C5, amended: once the clock has reached the [resetTime] of the
    persisted record, the next load returns no timestamps and
    [resetTime = now + windowMs], the next refresh reports
    [remainingRequests = max 0 maxRequests] and that [resetTime] without
    rewriting the store, and, if [maxRequests > 0], the [recordRequest]
    that follows in the new window returns [true]. *)
Theorem window_rollover config w d :
  persisted config w d ->
  Data.resetTime d <= clock w (ticks w) ->
  loadFromStorage config w
  = (Value (Data.make [] (clock w (ticks w) + windowMs config)), tick w)
  /\ exists w1,
       updateState config w = (Value tt, w1)
       /\ localStorage w1 = localStorage w
       /\ remainingRequests (state w1) = Z.max 0 (maxRequests config)
       /\ resetTime (state w1) = clock w (ticks w) + windowMs config
       /\ (0 < maxRequests config ->
           Data.resetTime d <= clock w (ticks w + 2) ->
           exists w2, recordRequest config w1 = (Value true, w2)).
Proof.
  intros Hp Hexp.
  assert (Hroll : forall w', persisted config w' d ->
            Data.resetTime d <= clock w' (ticks w') ->
            loadFromStorage config w'
            = (Value (new_window config (clock w' (ticks w'))), tick w')).
  { intros w' Hp' He.
    rewrite (loadFromStorage_record config w' d Hp').
    destruct (Z.geb_spec (clock w' (ticks w')) (Data.resetTime d));
      [reflexivity|lia]. }
  pose proof (Hroll w Hp Hexp) as Hl.
  split; [exact Hl|].
  rewrite (updateState_eq config w _ _ Hl).
  eexists. split; [reflexivity|]. cbn.
  rewrite Z.sub_0_r. repeat split; auto.
  intros Hpos Hlater.
  set (w1 := render _ _).
  assert (Hp1 : persisted config w1 d).
  { eapply persisted_same; [|exact Hp]. now repeat split. }
  assert (Hl1 : loadFromStorage config w1
                = (Value (new_window config (clock w1 (ticks w1))), tick w1)).
  { apply Hroll; [exact Hp1|].
    cbn. now replace (S (S (ticks w))) with (ticks w + 2)%nat by lia. }
  rewrite (recordRequest_eq config w1 _ _ Hl1).
  cbn [new_window Data.requests length].
  destruct (Z.geb_spec (Z.of_nat 0) (maxRequests config)); [lia|].
  set (w3 := saved _ _ _ _).
  destruct (updateState_total config w3) as (d' & w4 & _ & Hu).
  { apply saved_typed. eapply persisted_typed.
    eapply persisted_same; [|exact Hp1]. now repeat split. }
  unfold bind. rewrite Hu. eauto.
Qed.

(** [window_rollover] at a sample world. *)
Lemma window_rollover_witness :
  let w := world (holding [1000; 2000] 301000) false false (ticking 301000) in
  loadFromStorage feedback w
  = (Value (Data.make [] (clock w (ticks w) + windowMs feedback)), tick w)
  /\ exists w1,
       updateState feedback w = (Value tt, w1)
       /\ localStorage w1 = localStorage w
       /\ remainingRequests (state w1) = Z.max 0 (maxRequests feedback)
       /\ resetTime (state w1) = clock w (ticks w) + windowMs feedback
       /\ (0 < maxRequests feedback ->
           301000 <= clock w (ticks w + 2) ->
           exists w2, recordRequest feedback w1 = (Value true, w2)).
Proof.
  apply (window_rollover feedback
           (world (holding [1000; 2000] 301000) false false (ticking 301000))
           (Data.make [1000; 2000] 301000)).
  - holds (JSON.stringify [1000; 2000] 301000).
  - unfold ticking. cbn. lia.
Defined.

(** C6, as stated, fails: a persisted record with four timestamps, read
    after its window has ended, leaves all three requests of the limit. *)
Lemma stale_record_leaves_capacity :
  let w := world (holding [10; 20; 30; 40] 300010) false false (ticking 400000) in
  persisted feedback w (Data.make [10; 20; 30; 40] 300010)
  /\ maxRequests feedback < Z.of_nat (length [10; 20; 30; 40])
  /\ fst (updateState feedback w) = Value tt
  /\ remainingRequests (state (snd (updateState feedback w))) = 3
  /\ remainingRequests (state (snd (updateState feedback w))) <> 0
  /\ canProceed (state (snd (updateState feedback w))) = true.
Proof.
  split; [holds (JSON.stringify [10; 20; 30; 40] 300010)|].
  vm_compute. repeat split; try reflexivity. discriminate.
Qed.

(** C6, amended: with [maxRequests = N], a store that works and nothing on
    record, after [k <= N] accepted calls of [recordRequest] within one
    window the reported [remainingRequests] is [N - k]; for a persisted
    record read before its [resetTime] of which at least [N] timestamps
    are less than a window old, [remainingRequests] is [0] and
    [canProceed] is [false]; and on every store whose text is absent, is
    not JSON, or is read by [loadFromStorage] within the types of the
    source (as is every record of integer timestamps and an integer
    [resetTime], however many timestamps it holds), a refresh throws
    nothing, [remainingRequests] is not negative and [canProceed] holds
    exactly when it is positive. *)
Theorem remaining_count config :
  (forall w deadline (N k : nat),
      maxRequests config = Z.of_nat N -> (k <= N)%nat ->
      operational w -> empty_history config w deadline ->
      within_window config w deadline (4 * (N + 1)) ->
      exists w1 w2,
        recordRequests config k w = (Value (repeat true k), w1)
        /\ (k <> O -> remainingRequests (state w1) = Z.of_nat N - Z.of_nat k)
        /\ updateState config w1 = (Value tt, w2)
        /\ remainingRequests (state w2) = Z.of_nat N - Z.of_nat k)
  /\ (forall w d,
        persisted config w d ->
        clock w (ticks w) < Data.resetTime d ->
        maxRequests config
        <= Z.of_nat (length (List.filter
                               (fun t => clock w (ticks w) - t <? windowMs config)
                               (Data.requests d))) ->
        exists w', updateState config w = (Value tt, w')
                   /\ remainingRequests (state w') = 0
                   /\ canProceed (state w') = false)
  /\ (forall w,
        storage_typed config w = true ->
        exists w', updateState config w = (Value tt, w')
                   /\ 0 <= remainingRequests (state w')
                   /\ canProceed (state w') = (0 <? remainingRequests (state w'))).
Proof.
  split; [|split].
  - intros w deadline N k HN Hk Ho He Hw.
    destruct (recorded_run config w deadline k 0 w) as (w1 & Hr & Hrec).
    + now apply recorded_start.
    + cbn. lia.
    + intros i Hi. apply Hw. cbn in Hi. lia.
    + cbn [Nat.add] in Hrec.
      destruct (recorded_refresh config w deadline k w1 Hrec)
        as (w2 & Hu & Hrem & _).
      { intros i Hi. apply Hw. lia. }
      exists w1, w2. repeat split; auto.
      * intros Hk0. destruct k as [|k]; [congruence|].
        destruct Hrec as (_ & _ & _ & ts & _ & _ & _ & -> & _). lia.
      * rewrite Hrem. lia.
  - intros w d Hp Hlt Hfull.
    pose proof (loadFromStorage_record config w d Hp) as Hl.
    destruct (Z.geb_spec (clock w (ticks w)) (Data.resetTime d)); [lia|].
    rewrite (updateState_eq config w _ _ Hl).
    eexists. split; [reflexivity|]. cbn.
    replace (Z.max 0 _) with 0 by lia. auto.
  - intros w Ht.
    destruct (updateState_total config w Ht) as (d & w1 & _ & Hu).
    eexists. split; [exact Hu|]. cbn. split; [lia|reflexivity].
Qed.

(** [remaining_count] at a sample world. *)
Lemma remaining_count_witness :
  (exists w1 w2,
      recordRequests feedback 2 (world ∅ false false (ticking 1000))
      = (Value (repeat true 2), w1)
      /\ (2%nat <> O -> remainingRequests (state w1) = Z.of_nat 3 - Z.of_nat 2)
      /\ updateState feedback w1 = (Value tt, w2)
      /\ remainingRequests (state w2) = Z.of_nat 3 - Z.of_nat 2)
  /\ (exists w',
        updateState feedback
          (world (holding [10; 20; 30; 40] 300010) false false (ticking 100))
        = (Value tt, w')
        /\ remainingRequests (state w') = 0
        /\ canProceed (state w') = false)
  /\ (exists w',
        updateState feedback (world ∅ false false (ticking 1000)) = (Value tt, w')
        /\ 0 <= remainingRequests (state w')
        /\ canProceed (state w') = (0 <? remainingRequests (state w'))).
Proof.
  destruct (remaining_count feedback) as (HA & HB & HC).
  split; [|split].
  - apply (HA (world ∅ false false (ticking 1000)) 301000 3%nat 2%nat).
    + reflexivity.
    + lia.
    + split; reflexivity.
    + left. split; reflexivity.
    + intros i Hi. unfold ticking. cbn in *. lia.
  - apply (HB (world (holding [10; 20; 30; 40] 300010) false false (ticking 100))
              (Data.make [10; 20; 30; 40] 300010)).
    + holds (JSON.stringify [10; 20; 30; 40] 300010).
    + unfold ticking. cbn. lia.
    + vm_compute. discriminate.
  - apply HC. reflexivity.
Defined.

(** C7: with [maxRequests <= 0], whatever (typed) text the store holds,
    every call of [recordRequest] returns [false] and every derived
    state, after a request or after a refresh, has
    [remainingRequests = 0] and [canProceed = false]. *)
Theorem nonpositive_limit_rejects config w :
  maxRequests config <= 0 -> storage_typed config w = true ->
  (exists w', recordRequest config w = (Value false, w')
              /\ remainingRequests (state w') = 0
              /\ canProceed (state w') = false)
  /\ (exists w', updateState config w = (Value tt, w')
                 /\ remainingRequests (state w') = 0
                 /\ canProceed (state w') = false).
Proof.
  intros Hmax Ht. split.
  - destruct (recordRequest_total config w Ht)
      as (d & w1 & w' & _ & Hr & _ & d' & w2 & Hst).
    exists w'. rewrite Hr, Hst. cbn.
    replace (Z.max 0 _) with 0 by lia.
    repeat split; auto.
    destruct (Z.geb_spec (Z.of_nat (length (Data.requests d))) (maxRequests config));
      [reflexivity|lia].
  - destruct (updateState_total config w Ht) as (d & w1 & _ & Hu).
    eexists. split; [exact Hu|]. cbn.
    replace (Z.max 0 _) with 0 by lia. auto.
Qed.

(** [nonpositive_limit_rejects] at a sample world. *)
Lemma nonpositive_limit_rejects_witness :
  let w := world {[ "rateLimit_closed" := JSON.stringify [] 500 ]}
                 false false (ticking 100) in
  (exists w', recordRequest closed w = (Value false, w')
              /\ remainingRequests (state w') = 0
              /\ canProceed (state w') = false)
  /\ (exists w', updateState closed w = (Value tt, w')
                 /\ remainingRequests (state w') = 0
                 /\ canProceed (state w') = false).
Proof.
  apply (nonpositive_limit_rejects closed).
  - cbn. lia.
  - vm_compute. reflexivity.
Defined.

(** C8: for a persisted record read at a time [now] before its
    [resetTime], the loaded record keeps the stored [resetTime] and
    exactly the stored timestamps [t] with [now - t < windowMs], in their
    order; it holds no timestamp a window old or older. *)
Theorem load_drops_stale config w d :
  persisted config w d ->
  clock w (ticks w) < Data.resetTime d ->
  exists d',
    loadFromStorage config w = (Value d', tick w)
    /\ Data.resetTime d' = Data.resetTime d
    /\ Data.requests d'
       = List.filter (fun t => clock w (ticks w) - t <? windowMs config)
                     (Data.requests d)
    /\ (forall t, In t (Data.requests d')
                  <-> In t (Data.requests d)
                      /\ clock w (ticks w) - t < windowMs config)
    /\ (forall t, In t (Data.requests d')
                  -> ~ windowMs config <= clock w (ticks w) - t).
Proof.
  intros Hp Hlt.
  exists (live config (clock w (ticks w)) d).
  rewrite (loadFromStorage_record config w d Hp).
  destruct (Z.geb_spec (clock w (ticks w)) (Data.resetTime d)); [lia|].
  assert (Hin : forall t, In t (Data.requests (live config (clock w (ticks w)) d))
                  <-> In t (Data.requests d)
                      /\ clock w (ticks w) - t < windowMs config).
  { intros t. cbn. rewrite filter_In. now rewrite Z.ltb_lt. }
  repeat split; try apply Hin; auto.
  intros t Hi%Hin. lia.
Qed.

(** [load_drops_stale] at a sample world. *)
Lemma load_drops_stale_witness :
  let w := world (holding [50000; 350000] 500000) false false (ticking 400000) in
  let d := Data.make [50000; 350000] 500000 in
  exists d',
    loadFromStorage feedback w = (Value d', tick w)
    /\ Data.resetTime d' = Data.resetTime d
    /\ Data.requests d'
       = List.filter (fun t => clock w (ticks w) - t <? windowMs feedback)
                     (Data.requests d)
    /\ (forall t, In t (Data.requests d')
                  <-> In t (Data.requests d)
                      /\ clock w (ticks w) - t < windowMs feedback)
    /\ (forall t, In t (Data.requests d')
                  -> ~ windowMs feedback <= clock w (ticks w) - t).
Proof.
  apply (load_drops_stale feedback
           (world (holding [50000; 350000] 500000) false false (ticking 400000))
           (Data.make [50000; 350000] 500000)).
  - holds (JSON.stringify [50000; 350000] 500000).
  - unfold ticking. cbn. lia.
Defined.

(** C9: a record of integer timestamps and an integer [resetTime],
    written as [saveToStorage] writes it ([JSON.stringify]) and read as
    [loadFromStorage] reads it ([JSON.parse], then its two fields), comes
    back unchanged: the text parses to an object with exactly the two
    fields, these read back as the record, and a working store holds the
    record after [saveToStorage]. *)
Theorem serialize_roundtrip (x : Data.t) :
  deserialize (serialize x) = Some x
  /\ JSON.parse (serialize x)
     = Some (object_of (Data.requests x) (Data.resetTime x))
  /\ forall config w,
       operational w ->
       persisted config
         (snd (saveToStorage config (Data.requests x) (Data.resetTime x) w)) x.
Proof.
  destruct x as [rs rt]. cbn [Data.requests Data.resetTime].
  split; [|split].
  - unfold deserialize, serialize. cbn [Data.requests Data.resetTime].
    rewrite parse_stringify.
    destruct (property_object_of rs rt) as [-> ->].
    rewrite integers_map. unfold integer. now rewrite to_integer_0.
  - apply parse_stringify.
  - intros config w (Hd & Hf).
    rewrite saveToStorage_eq. unfold saved. rewrite Hd, Hf.
    apply persisted_store, Hd.
Qed.

(** [serialize_roundtrip] at a sample world. *)
Lemma serialize_roundtrip_witness :
  let x := Data.make [1700000000000; 1700000000001] 1700000300000 in
  deserialize (serialize x) = Some x
  /\ persisted feedback
       (snd (saveToStorage feedback (Data.requests x) (Data.resetTime x)
               (world ∅ false false (ticking 1000)))) x.
Proof.
  destruct (serialize_roundtrip
              (Data.make [1700000000000; 1700000000001] 1700000300000))
    as (H1 & _ & H3).
  split; [exact H1|].
  apply (H3 feedback (world ∅ false false (ticking 1000))).
  split; reflexivity.
Defined.

(** C10: when the loaded record has as many timestamps as the limit or
    more, [recordRequest] returns [false] and the store holds after the
    call what it held before. *)
Theorem rejected_request_writes_nothing config w d w1 :
  storage_typed config w = true ->
  loadFromStorage config w = (Value d, w1) ->
  maxRequests config <= Z.of_nat (length (Data.requests d)) ->
  exists w', recordRequest config w = (Value false, w')
             /\ localStorage w' = localStorage w.
Proof.
  intros Ht Hl Hfull.
  destruct (recordRequest_total config w Ht)
    as (d0 & w0 & w' & Hl0 & Hr & Hs & _).
  rewrite Hl in Hl0. injection Hl0 as <- <-.
  exists w'. rewrite Hr. split.
  - destruct (Z.geb_spec (Z.of_nat (length (Data.requests d))) (maxRequests config));
      [reflexivity|lia].
  - now destruct (Hs Hfull).
Qed.

(** [rejected_request_writes_nothing] at a sample world. *)
Lemma rejected_request_writes_nothing_witness :
  let w := world (holding [1000; 1001; 1002] 301000) false false (ticking 2000) in
  exists w', recordRequest feedback w = (Value false, w')
             /\ localStorage w' = localStorage w.
Proof.
  apply (rejected_request_writes_nothing feedback
           (world (holding [1000; 1001; 1002] 301000) false false (ticking 2000))
           (Data.make [1000; 1001; 1002] 301000)
           (tick (world (holding [1000; 1001; 1002] 301000) false false
                        (ticking 2000)))).
  - vm_compute. reflexivity.
  - vm_compute. reflexivity.
  - cbn. lia.
Defined.

(** ** Further properties of the limiter *)

Section Keys.

Variable config : RateLimitConfig.

Lemma same_elsewhere_storage w w' :
  same_storage w w' -> same_elsewhere config w w'.
Proof.
  intros (E & Hd & Hf & Hc). split; [|now repeat split].
  intros k _. now rewrite E.
Qed.

Lemma same_elsewhere_trans w1 w2 w3 :
  same_elsewhere config w1 w2 -> same_elsewhere config w2 w3 ->
  same_elsewhere config w1 w3.
Proof.
  intros (E1 & ? & ? & ?) (E2 & ? & ? & ?).
  split; [|repeat split; congruence].
  intros k Hk. now rewrite E2, E1.
Qed.

Lemma same_elsewhere_saved rs rt w :
  same_elsewhere config w (saved config rs rt w).
Proof.
  unfold saved. destruct (storage_denied w) eqn:Hd.
  - apply same_elsewhere_storage, same_storage_log.
  - destruct (storage_full w) eqn:Hf.
    + apply same_elsewhere_storage, same_storage_log.
    + split; [|now repeat split].
      intros k Hk. cbn. now apply lookup_insert_ne.
Qed.

(** Whatever the store holds and however the call ends, [recordRequest]
    leaves every other key, the faults and the clock as they are. *)
Lemma recordRequest_elsewhere w :
  same_elsewhere config w (snd (recordRequest config w)).
Proof.
  destruct (loadFromStorage config w) as [o w1] eqn:Hl.
  destruct (loadFromStorage_frame config w o w1 Hl) as (Hs & _).
  destruct o as [d|e|].
  - rewrite (recordRequest_eq config w d w1 Hl).
    destruct (_ >=? _); unfold bind;
      match goal with
      | |- context [updateState config ?x] =>
          pose proof (updateState_frame config x) as Hu;
          destruct (updateState config x) as [o' w'] eqn:Hx;
          specialize (Hu o' w' eq_refl)
      end.
    + assert (same_elsewhere config w w').
      { apply same_elsewhere_storage.
        eapply same_storage_trans; [exact Hs|].
        eapply same_storage_trans; [apply same_storage_tick|exact Hu]. }
      now destruct o'.
    + assert (same_elsewhere config w w').
      { eapply same_elsewhere_trans;
          [apply same_elsewhere_storage;
           eapply same_storage_trans; [exact Hs|apply same_storage_tick]|].
        eapply same_elsewhere_trans; [apply same_elsewhere_saved|].
        apply same_elsewhere_storage, Hu. }
      now destruct o'.
  - unfold recordRequest, bind. rewrite Hl. cbn.
    now apply same_elsewhere_storage.
  - unfold recordRequest, bind. rewrite Hl. cbn.
    now apply same_elsewhere_storage.
Qed.

(** A request accepted on a working store: the store then holds the
    loaded record with the time of the request appended. *)
Lemma recordRequest_accepted w d w1 :
  operational w ->
  loadFromStorage config w = (Value d, w1) ->
  Z.of_nat (length (Data.requests d)) < maxRequests config ->
  exists w',
    recordRequest config w = (Value true, w')
    /\ persisted config w'
         (Data.make (Data.requests d ++ [clock w1 (ticks w1)]) (Data.resetTime d))
    /\ operational w' /\ clock w' = clock w
    /\ (ticks w1 + 3 <= ticks w' <= ticks w1 + 4)%nat
    /\ exists d' w2,
         loadFromStorage config
           (store (effectiveStorageKey config)
              (JSON.stringify (Data.requests d ++ [clock w1 (ticks w1)])
                              (Data.resetTime d)) (tick w1))
         = (Value d', w2)
         /\ state w' = derive config d' (clock w2 (ticks w2)).
Proof.
  intros (Hd & Hf) Hl Hlt.
  destruct (loadFromStorage_frame config w _ _ Hl) as ((E1 & Hd1 & Hf1 & Hc1) & _).
  rewrite (recordRequest_eq config w d w1 Hl).
  destruct (Z.geb_spec (Z.of_nat (length (Data.requests d))) (maxRequests config));
    [lia|].
  unfold saved. cbn [tick storage_denied storage_full].
  rewrite Hd1, Hf1, Hd, Hf.
  set (w3 := store _ _ _).
  assert (Hp : persisted config w3
                 (Data.make (Data.requests d ++ [clock w1 (ticks w1)])
                            (Data.resetTime d))).
  { apply persisted_store. cbn. congruence. }
  destruct (loadFromStorage_total config w3 (persisted_typed config _ _ Hp))
    as (d' & w2 & Hl2).
  destruct (loadFromStorage_frame config w3 _ _ Hl2) as (Hs2 & _ & Ht2 & _).
  unfold bind. rewrite (updateState_eq config w3 d' w2 Hl2).
  eexists. split; [reflexivity|].
  assert (Hs3 : same_storage w3 (render (derive config d' (clock w2 (ticks w2)))
                                        (tick w2))).
  { eapply same_storage_trans; [exact Hs2|]. now repeat split. }
  split; [eapply persisted_same; [exact Hs3|exact Hp]|].
  destruct Hs3 as (_ & Hd3 & Hf3 & Hc3).
  split; [split; cbn in *; congruence|].
  split; [cbn in *; congruence|].
  split; [subst w3; cbn in *; lia|].
  exists d', w2. now split.
Qed.

End Keys.

(** X1: a request accepted on a working store is written to it: if the
    loaded record is short of the limit, [recordRequest] returns [true]
    and the store then holds, under the limiter's key, the loaded
    timestamps followed by the time of the request, with the loaded
    [resetTime]; that record has at most [maxRequests] timestamps, and no
    other key of the store is touched. *)
Theorem accepted_request_is_stored config w d w1 :
  operational w ->
  loadFromStorage config w = (Value d, w1) ->
  Z.of_nat (length (Data.requests d)) < maxRequests config ->
  exists w',
    recordRequest config w = (Value true, w')
    /\ persisted config w'
         (Data.make (Data.requests d ++ [clock w1 (ticks w1)]) (Data.resetTime d))
    /\ Z.of_nat (length (Data.requests d ++ [clock w1 (ticks w1)]))
       <= maxRequests config
    /\ forall k, k <> effectiveStorageKey config ->
                 localStorage w' !! k = localStorage w !! k.
Proof.
  intros Ho Hl Hlt.
  destruct (recordRequest_accepted config w d w1 Ho Hl Hlt) as (w' & Hr & Hp & _).
  exists w'. split; [exact Hr|]. split; [exact Hp|].
  split; [rewrite length_app; cbn [length]; lia|].
  pose proof (recordRequest_elsewhere config w) as (E & _).
  now rewrite Hr in E.
Qed.

(** [accepted_request_is_stored] at a sample world. *)
Lemma accepted_request_is_stored_witness :
  let w := world (holding [1000; 2000] 301000) false false (ticking 3000) in
  exists w',
    recordRequest feedback w = (Value true, w')
    /\ persisted feedback w' (Data.make ([1000; 2000] ++ [3001]) 301000)
    /\ Z.of_nat (length ([1000; 2000] ++ [3001])) <= maxRequests feedback
    /\ forall k, k <> effectiveStorageKey feedback ->
                 localStorage w' !! k = localStorage w !! k.
Proof.
  intros w.
  apply (accepted_request_is_stored feedback w
           (Data.make [1000; 2000] 301000) (tick w)).
  - split; reflexivity.
  - vm_compute. reflexivity.
  - vm_compute. reflexivity.
Defined.

(** X2: limiters with different storage keys do not interfere: whatever
    the store holds and however the call ends, a [recordRequest] of one
    leaves the text under the key of the other as it is, so a record the
    other has persisted is still persisted; and two limiters without a
    [storageKey] have different storage keys whenever their [key]s
    differ. *)
Theorem limiters_do_not_interfere a b :
  (effectiveStorageKey a <> effectiveStorageKey b ->
   forall w,
     localStorage (snd (recordRequest a w)) !! effectiveStorageKey b
     = localStorage w !! effectiveStorageKey b
     /\ forall d, persisted b w d -> persisted b (snd (recordRequest a w)) d)
  /\ (storageKey a = None -> storageKey b = None -> key a <> key b ->
      effectiveStorageKey a <> effectiveStorageKey b).
Proof.
  split.
  - intros Hk w.
    destruct (recordRequest_elsewhere a w) as (E & Hd & _).
    specialize (E (effectiveStorageKey b) (not_eq_sym Hk)).
    split; [exact E|].
    intros d (Hd' & text & Ht & Hdes).
    split; [congruence|]. exists text. split; [congruence|exact Hdes].
  - unfold effectiveStorageKey. intros -> -> Hk E. apply Hk.
    now injection E.
Qed.

(** [limiters_do_not_interfere] at a sample world. *)
Lemma limiters_do_not_interfere_witness :
  let w := world (holding [1000; 2000] 301000) false false (ticking 3000) in
  (localStorage (snd (recordRequest changelog w)) !! effectiveStorageKey feedback
   = localStorage w !! effectiveStorageKey feedback
   /\ forall d, persisted feedback w d ->
                persisted feedback (snd (recordRequest changelog w)) d)
  /\ effectiveStorageKey closed
     <> effectiveStorageKey
          {| key := "open"; maxRequests := 1; windowMs := 1000;
             storageKey := None |}.
Proof.
  intros w. split.
  - apply (proj1 (limiters_do_not_interfere changelog feedback)).
    vm_compute. discriminate.
  - apply (proj2 (limiters_do_not_interfere closed
                    {| key := "open"; maxRequests := 1; windowMs := 1000;
                       storageKey := None |})).
    + reflexivity.
    + reflexivity.
    + vm_compute. discriminate.
Defined.

Section Failing.

Variable config : RateLimitConfig.

Lemma never_counting_same w w' :
  same_storage w w' -> never_counting config w -> never_counting config w'.
Proof.
  intros Hs [Hd|(Hf & H)].
  - left. destruct Hs as (_ & -> & _). exact Hd.
  - right. split; [destruct Hs as (_ & _ & -> & _); exact Hf|].
    destruct H as [H|(d & Hp & Hl)].
    + left. destruct Hs as (-> & _). exact H.
    + right. exists d. split; [eapply persisted_same; eassumption|exact Hl].
Qed.

Lemma never_counting_load w :
  0 < maxRequests config -> never_counting config w ->
  exists d w1, loadFromStorage config w = (Value d, w1)
               /\ Z.of_nat (length (Data.requests d)) < maxRequests config.
Proof.
  intros Hm H.
  destruct (storage_denied w) eqn:Hd.
  { rewrite (loadFromStorage_denied config w Hd). eexists _, _.
    split; [reflexivity|exact Hm]. }
  destruct H as [H|(_ & [H|(d & Hp & Hl)])]; [congruence| |].
  - rewrite (loadFromStorage_absent config w Hd (or_introl H)).
    eexists _, _. split; [reflexivity|exact Hm].
  - rewrite (loadFromStorage_record config w d Hp). eexists _, _.
    split; [reflexivity|].
    destruct (_ >=? _); [exact Hm|].
    cbn [live Data.requests].
    pose proof (filter_length_le
                  (fun t => clock w (ticks w) - t <? windowMs config)
                  (Data.requests d)).
    lia.
Qed.

Lemma never_counting_saved rs rt w :
  never_counting config w -> same_storage w (saved config rs rt w).
Proof.
  intros H. unfold saved.
  destruct (storage_denied w) eqn:Hd; [apply same_storage_log|].
  destruct (storage_full w) eqn:Hf; [apply same_storage_log|].
  destruct H as [H|(H & _)]; congruence.
Qed.

Lemma never_counting_request w :
  0 < maxRequests config -> never_counting config w ->
  exists w', recordRequest config w = (Value true, w') /\ same_storage w w'.
Proof.
  intros Hm H.
  destruct (never_counting_load w Hm H) as (d & w1 & Hl & Hlt).
  destruct (loadFromStorage_frame config w _ _ Hl) as (Hs & _).
  rewrite (recordRequest_eq config w d w1 Hl).
  destruct (Z.geb_spec (Z.of_nat (length (Data.requests d))) (maxRequests config));
    [lia|].
  set (w3 := saved _ _ _ _).
  assert (Hs3 : same_storage w w3).
  { eapply same_storage_trans; [exact Hs|].
    eapply same_storage_trans; [apply same_storage_tick|].
    apply never_counting_saved.
    eapply never_counting_same; [|exact H].
    eapply same_storage_trans; [exact Hs|apply same_storage_tick]. }
  destruct (never_counting_load w3 Hm (never_counting_same _ _ Hs3 H))
    as (d' & w2 & Hl2 & _).
  unfold bind. rewrite (updateState_eq config w3 d' w2 Hl2).
  eexists. split; [reflexivity|].
  eapply same_storage_trans; [exact Hs3|].
  eapply updateState_frame. apply (updateState_eq config w3 d' w2 Hl2).
Qed.

Lemma never_counting_run n : forall w,
  0 < maxRequests config -> never_counting config w ->
  exists w', recordRequests config n w = (Value (repeat true n), w')
             /\ same_storage w w'.
Proof.
  induction n as [|n IH]; intros w Hm H.
  - exists w. split; [reflexivity|apply same_storage_refl].
  - destruct (never_counting_request w Hm H) as (w1 & H1 & Hs1).
    destruct (IH w1 Hm (never_counting_same _ _ Hs1 H)) as (w2 & H2 & Hs2).
    exists w2. split.
    + cbn [recordRequests repeat]. unfold bind at 1. rewrite H1.
      unfold bind at 1. now rewrite H2.
    + eapply same_storage_trans; eassumption.
Qed.

(** With a window of no length the record of every accepted request has
    lapsed by the time it is read again. *)
Lemma lapsed_request w :
  windowMs config <= 0 -> 0 < maxRequests config ->
  operational w -> monotone (clock w) -> lapsed config w ->
  exists w', recordRequest config w = (Value true, w')
             /\ operational w' /\ clock w' = clock w /\ lapsed config w'.
Proof.
  intros Hw Hm Ho Hc Hl.
  assert (Hload : loadFromStorage config w
                  = (Value (new_window config (clock w (ticks w))), tick w)).
  { destruct Hl as [Hn|(d & Hp & Hd)].
    - apply loadFromStorage_absent; [apply Ho|now left].
    - rewrite (loadFromStorage_record config w d Hp).
      destruct (Z.geb_spec (clock w (ticks w)) (Data.resetTime d)); [reflexivity|lia]. }
  destruct (recordRequest_accepted config w _ _ Ho Hload)
    as (w' & Hr & Hp & Ho' & Hc' & Ht' & _); [exact Hm|].
  exists w'. split; [exact Hr|]. split; [exact Ho'|]. split; [exact Hc'|].
  right. eexists. split; [exact Hp|].
  cbn [Data.resetTime new_window]. rewrite Hc'.
  pose proof (Hc (ticks w) (ticks w')) as Hle. cbn [tick ticks] in Ht'.
  specialize (Hle ltac:(lia)). lia.
Qed.

End Failing.

(** X3: a limiter whose store fails never limits: if [maxRequests > 0]
    and either reading the store throws, or writing to it throws and the
    store holds nothing under the key or a record short of the limit,
    then any number of calls of [recordRequest] in succession all return
    [true], at any times, and the store stays as it was. *)
Theorem failing_store_never_limits config w (n : nat) :
  0 < maxRequests config -> never_counting config w ->
  exists w', recordRequests config n w = (Value (repeat true n), w')
             /\ localStorage w' = localStorage w.
Proof.
  intros Hm H.
  destruct (never_counting_run config n w Hm H) as (w' & Hr & Hs & _).
  now exists w'.
Qed.

(** [failing_store_never_limits] at a sample world. *)
Lemma failing_store_never_limits_witness :
  let w := world (holding [1000; 2000] 301000) false true (ticking 3000) in
  exists w', recordRequests feedback 10 w = (Value (repeat true 10), w')
             /\ localStorage w' = localStorage w.
Proof.
  intros w. apply (failing_store_never_limits feedback w 10).
  - reflexivity.
  - right. split; [reflexivity|]. right.
    exists (Data.make [1000; 2000] 301000).
    split; [holds (JSON.stringify [1000; 2000] 301000)|vm_compute; reflexivity].
Defined.

(** X4: a limiter with a window of no length never limits: if
    [windowMs <= 0] and [maxRequests > 0], on a working store that holds
    nothing under the key or a record whose window has ended, and with a
    clock that never runs backwards, any number of calls of
    [recordRequest] in succession all return [true]. *)
Theorem empty_window_never_limits config w (n : nat) :
  windowMs config <= 0 -> 0 < maxRequests config ->
  operational w -> monotone (clock w) -> lapsed config w ->
  exists w', recordRequests config n w = (Value (repeat true n), w').
Proof.
  intros Hw Hm. revert w.
  induction n as [|n IH]; intros w Ho Hc Hl.
  - exists w. reflexivity.
  - destruct (lapsed_request config w Hw Hm Ho Hc Hl)
      as (w1 & H1 & Ho1 & Hc1 & Hl1).
    destruct (IH w1 Ho1) as (w2 & H2); [now rewrite Hc1|exact Hl1|].
    exists w2. cbn [recordRequests repeat]. unfold bind at 1. rewrite H1.
    unfold bind at 1. now rewrite H2.
Qed.

(** [empty_window_never_limits] at a sample world. *)
Lemma empty_window_never_limits_witness :
  let config := {| key := "k"; maxRequests := 1; windowMs := 0;
                   storageKey := None |} in
  exists w', recordRequests config 5 (world ∅ false false (ticking 1000))
             = (Value (repeat true 5), w').
Proof.
  intros config.
  apply (empty_window_never_limits config (world ∅ false false (ticking 1000)) 5).
  - vm_compute. discriminate.
  - reflexivity.
  - split; reflexivity.
  - intros i j Hij. unfold world, ticking. cbn. lia.
  - left. reflexivity.
Defined.

Section Mount.

Variable config : RateLimitConfig.

(** With nothing readable under the key a load opens a window at its
    reading of the clock. *)
Lemma loadFromStorage_unreadable w :
  unreadable config w ->
  exists w1,
    loadFromStorage config w
    = (Value (new_window config (clock w (ticks w))), w1)
    /\ clock w1 = clock w /\ ticks w1 = S (ticks w).
Proof.
  unfold unreadable. intros H.
  destruct (storage_denied w) eqn:Hd.
  { rewrite (loadFromStorage_denied config w Hd). now eexists. }
  destruct (localStorage w !! effectiveStorageKey config) as [text|] eqn:Hk.
  - destruct text as [|c s].
    + rewrite (loadFromStorage_absent config w Hd (or_intror Hk)). now eexists.
    + rewrite (loadFromStorage_unparsable config w _ Hd Hk); [|discriminate|exact H].
      now eexists.
  - rewrite (loadFromStorage_absent config w Hd (or_introl Hk)). now eexists.
Qed.

End Mount.

(** X5: the state of the first render against the first refresh: the
    value given to [useState] reads the clock once, touches nothing, and
    always says [canProceed = true] with [remainingRequests = maxRequests];
    on a store with nothing readable under the key, the refresh of the
    mount effect agrees with it on [canProceed] and [remainingRequests]
    exactly when [maxRequests > 0], and moves [resetTime] by the time
    that passed between their readings of the clock. *)
Theorem initial_state_against_first_refresh config w :
  exists s,
    initialState config w = (Value s, tick w)
    /\ canProceed s = true
    /\ remainingRequests s = maxRequests config
    /\ (unreadable config w ->
        exists w',
          updateState config (tick w) = (Value tt, w')
          /\ ((canProceed (state w') = canProceed s
               /\ remainingRequests (state w') = remainingRequests s)
              <-> 0 < maxRequests config)
          /\ resetTime (state w') - resetTime s
             = clock w (S (ticks w)) - clock w (ticks w)).
Proof.
  eexists. split; [reflexivity|]. split; [reflexivity|]. split; [reflexivity|].
  intros Hu.
  destruct (loadFromStorage_unreadable config (tick w)) as (w1 & Hl & Hc & Ht).
  { exact Hu. }
  rewrite (updateState_eq config (tick w) _ w1 Hl).
  eexists. split; [reflexivity|].
  cbn [state render derive canProceed remainingRequests resetTime new_window
       Data.requests Data.resetTime length tick clock ticks].
  rewrite Z.sub_0_r. split; [|lia].
  destruct (Z.ltb_spec 0 (Z.max 0 (maxRequests config))); split.
  - lia.
  - intros _. split; [reflexivity|lia].
  - now intros [[=] _].
  - lia.
Qed.

(** [initial_state_against_first_refresh] at a sample world. *)
Lemma initial_state_against_first_refresh_witness :
  let w := world ∅ false false (ticking 1000) in
  exists s,
    initialState feedback w = (Value s, tick w)
    /\ canProceed s = true
    /\ remainingRequests s = maxRequests feedback
    /\ exists w',
         updateState feedback (tick w) = (Value tt, w')
         /\ ((canProceed (state w') = canProceed s
              /\ remainingRequests (state w') = remainingRequests s)
             <-> 0 < maxRequests feedback)
         /\ resetTime (state w') - resetTime s
            = clock w (S (ticks w)) - clock w (ticks w).
Proof.
  intros w.
  destruct (initial_state_against_first_refresh feedback w)
    as (s & Hi & Hc & Hr & H).
  exists s. split; [exact Hi|]. split; [exact Hc|]. split; [exact Hr|].
  apply H. reflexivity.
Defined.

(** ** The administrators *)

Section Ids.

Lemma split_comma_cons s : exists h t, split_comma s = h :: t.
Proof.
  destruct s as [|c r]; [now eexists _, _|].
  cbn. destruct (Ascii.eqb c ","); [now eexists _, _|].
  destruct (split_comma r); now eexists _, _.
Qed.

Lemma split_comma_free s :
  comma_free s = true -> split_comma s = [s].
Proof.
  induction s as [|c r IH]; [reflexivity|].
  cbn. destruct (Ascii.eqb c ","); [discriminate|].
  intros H. now rewrite (IH H).
Qed.

Lemma split_comma_append s r :
  comma_free s = true ->
  split_comma (s +:+ String "," r) = s :: split_comma r.
Proof.
  induction s as [|c s IH]; [reflexivity|].
  change (String c s +:+ String "," r) with (String c (s +:+ String "," r)).
  cbn [split_comma comma_free].
  destruct (Ascii.eqb c ","); [discriminate|].
  intros H. now rewrite (IH H).
Qed.

Lemma split_comma_segments s :
  Forall (fun id => comma_free id = true) (split_comma s).
Proof.
  induction s as [|c r IH]; [now repeat constructor|].
  cbn. destruct (Ascii.eqb c ",") eqn:E; [now constructor|].
  destruct (split_comma r) as [|h t]; [repeat constructor; cbn; now rewrite E|].
  inversion IH as [|? ? Hh Ht]; subst.
  constructor; [cbn; now rewrite E|exact Ht].
Qed.

Lemma includes_In ids userId :
  includes ids userId = true <-> In userId ids.
Proof.
  unfold includes. rewrite existsb_exists. split.
  - intros (x & Hx & E). apply String.eqb_eq in E. now subst.
  - intros H. exists userId. split; [exact H|apply String.eqb_refl].
Qed.

Lemma user_ids_In variable userId :
  In userId (user_ids variable)
  <-> userId <> EmptyString /\ In userId (split_comma (or_empty variable)).
Proof.
  unfold user_ids. rewrite filter_In. split.
  - intros (H & Ht). split; [|exact H]. now destruct userId.
  - intros (Hn & H). split; [exact H|]. now destruct userId.
Qed.

End Ids.

(** X6: the identifiers a variable configures are the nonempty texts
    between its commas, in their order: every identifier read from a
    variable is nonempty and has no comma, and the identifiers read from
    a comma-joined list of nonempty, comma-free identifiers are that
    list. An undefined variable configures nobody. *)
Theorem user_ids_of_joined_list :
  (forall variable,
      Forall (fun id => truthy id = true /\ comma_free id = true)
             (user_ids variable))
  /\ (forall ids,
        Forall (fun id => truthy id = true /\ comma_free id = true) ids ->
        user_ids (Some (join_comma ids)) = ids)
  /\ user_ids None = [].
Proof.
  split; [|split; [|reflexivity]].
  - intros variable. unfold user_ids.
    apply List.Forall_forall. intros id Hin. apply filter_In in Hin as (Hin & Ht).
    split; [exact Ht|].
    pose proof (split_comma_segments (or_empty variable)) as H.
    rewrite List.Forall_forall in H. now apply H.
  - unfold user_ids. cbn [or_empty].
    induction 1 as [|id rest (Ht & Hc) Hrest IH]; [reflexivity|].
    cbn [join_comma]. destruct rest as [|id' rest'].
    + rewrite (split_comma_free id Hc). cbn. now rewrite Ht.
    + change (id +:+ "," +:+ join_comma (id' :: rest'))
        with (id +:+ String "," (join_comma (id' :: rest'))).
      rewrite (split_comma_append id _ Hc).
      cbn [List.filter]. rewrite Ht. f_equal. exact IH.
Qed.

(** [user_ids_of_joined_list] at a sample list. *)
Lemma user_ids_of_joined_list_witness :
  user_ids (Some (join_comma ["u1"; "u 2"; "U3"])) = ["u1"; "u 2"; "U3"].
Proof.
  apply (proj1 (proj2 user_ids_of_joined_list) ["u1"; "u 2"; "U3"]).
  repeat constructor.
Defined.

(** X7: what a user may do is determined by the role [getUserRole] gives
    them: an administrator has all four permissions, a moderator has
    [canCreateChangelogs] and [canModerateComments] and no other, a user
    has none; a visitor without an identifier is a user. *)
Theorem permissions_follow_role env userId permission :
  hasPermission env userId permission
  = match getUserRole env userId with
    | ADMIN => true
    | MODERATOR =>
        match permission with
        | canCreateChangelogs | canModerateComments => true
        | canViewAnalytics | canManageUsers => false
        end
    | USER => false
    end
  /\ getUserRole env None = USER
  /\ getUserRole env (Some EmptyString) = USER.
Proof.
  split; [|split; reflexivity].
  destruct userId as [[|c s]|]; [reflexivity| |reflexivity].
  unfold getUserRole, hasPermission, permissions, isAdmin, isModerator.
  destruct (includes (ADMIN_USER_IDS env) (String c s)),
           (includes (MODERATOR_USER_IDS env) (String c s)),
           permission; reflexivity.
Qed.

(** X8: the role of a user is read off the two variables: a user is an
    administrator exactly when their identifier is nonempty and stands
    between two commas (or an end) of [VITE_ADMIN_USER_IDS], as it is
    written there; a moderator exactly when they are no administrator
    and their identifier stands so in [VITE_MODERATOR_USER_IDS]. The
    lists cannot name the empty identifier. *)
Theorem role_of_user env userId :
  (getUserRole env userId = ADMIN
   <-> exists id, userId = Some id /\ id <> EmptyString
                  /\ In id (split_comma (or_empty (VITE_ADMIN_USER_IDS env))))
  /\ (getUserRole env userId = MODERATOR
      <-> getUserRole env userId <> ADMIN
          /\ exists id, userId = Some id /\ id <> EmptyString
                        /\ In id (split_comma
                                    (or_empty (VITE_MODERATOR_USER_IDS env))))
  /\ (forall permission, permissions env permission EmptyString = false).
Proof.
  assert (Ha : forall variable id,
             includes (user_ids variable) id = true
             <-> id <> EmptyString /\ In id (split_comma (or_empty variable))).
  { intros variable id. rewrite includes_In. apply user_ids_In. }
  assert (He : forall variable, includes (user_ids variable) EmptyString = false).
  { intros variable. destruct (includes _ _) eqn:E; [|reflexivity].
    apply Ha in E as (E & _). congruence. }
  split; [|split].
  - destruct userId as [[|c s]|]; cbn.
    + split; [discriminate|]. intros (id & [= <-] & Hn & _). congruence.
    + unfold ADMIN_USER_IDS, MODERATOR_USER_IDS.
      destruct (includes (user_ids (VITE_ADMIN_USER_IDS env)) (String c s)) eqn:E.
      * split; [|reflexivity]. intros _. exists (String c s).
        apply Ha in E. now split.
      * split;
          [destruct (includes (user_ids (VITE_MODERATOR_USER_IDS env)) (String c s));
           discriminate|].
        intros (id & [= <-] & H). apply Ha in H. congruence.
    + split; [discriminate|]. now intros (id & [=] & _).
  - destruct userId as [[|c s]|]; cbn.
    + split; [discriminate|]. intros (_ & id & [= <-] & Hn & _). congruence.
    + unfold ADMIN_USER_IDS, MODERATOR_USER_IDS.
      destruct (includes (user_ids (VITE_ADMIN_USER_IDS env)) (String c s)) eqn:E.
      * split; [discriminate|]. now intros (H & _).
      * destruct (includes (user_ids (VITE_MODERATOR_USER_IDS env)) (String c s))
          eqn:E'.
        -- split; [|reflexivity]. intros _. split; [discriminate|].
           exists (String c s). apply Ha in E'. now split.
        -- split; [discriminate|].
           intros (_ & id & [= <-] & H). apply Ha in H. congruence.
    + split; [discriminate|]. now intros (_ & id & [=] & _).
  - intros permission. unfold permissions, ADMIN_USER_IDS, MODERATOR_USER_IDS.
    rewrite !He. now destruct permission.
Qed.

(** ** The page *)

Section Page.

Variable env : ImportMetaEnv.

(** [loadData], by the answers to its two requests. *)
Lemma loadData_eq p :
  App.loadData env p
  = (Value tt,
     match App.respond p (length (App.sent p)),
           App.respond p (S (length (App.sent p))) with
     | Some items, Some logs =>
         {| App.hook := App.hook p; App.user := App.user p;
            App.feedback := items; App.changelogs := logs;
            App.loading := App.loading p; App.newFeedback := App.newFeedback p;
            App.alerts := App.alerts p;
            App.defaultPrevented := App.defaultPrevented p;
            App.sent := (App.sent p ++ reload env)%list;
            App.respond := App.respond p |}
     | _, _ =>
         {| App.hook := log "Error loading data: AxiosError" (App.hook p);
            App.user := App.user p;
            App.feedback := App.feedback p; App.changelogs := App.changelogs p;
            App.loading := App.loading p; App.newFeedback := App.newFeedback p;
            App.alerts := App.alerts p;
            App.defaultPrevented := App.defaultPrevented p;
            App.sent := (App.sent p ++ reload env)%list;
            App.respond := App.respond p |}
     end).
Proof.
  unfold App.loadData, reload. page_run.
  rewrite length_app. cbn [length]. rewrite Nat.add_1_r.
  rewrite <- !app_assoc. cbn [app].
  destruct (App.respond p (length (App.sent p))) as [items|],
           (App.respond p (S (length (App.sent p)))) as [logs|];
    reflexivity.
Qed.

End Page.

Section Submit.

Variable env : ImportMetaEnv.
Variable config : RateLimitConfig.

(** A submission that fails one of the checks shows one message and does
    nothing else. *)
Lemma handleSubmitFeedback_refused p :
  ready p = false ->
  exists message,
    App.handleSubmitFeedback env config p = (Value tt, refused message p).
Proof.
  unfold ready, filled, App.handleSubmitFeedback, refused. page_run.
  destruct (canProceed (state (App.hook p))); page_run;
    [|intros _; eexists; reflexivity].
  destruct (App.user p); page_run; [|intros _; eexists; reflexivity].
  destruct (truthy (App.trim (App.title (App.newFeedback p)))); page_run;
    [|intros _; eexists; reflexivity].
  destruct (truthy (App.trim (App.description (App.newFeedback p))));
    page_run; [discriminate|intros _; eexists; reflexivity].
Qed.

(** A submission that passes the checks, by what the limiter and the
    server do. *)
Lemma handleSubmitFeedback_ready p :
  ready p = true ->
  App.handleSubmitFeedback env config p
  = match recordRequest config (App.hook p) with
    | (Value true, w) =>
        match App.respond p (length (App.sent p)) with
        | Some _ =>
            (Value tt,
             settled "Feedback submitted successfully!"
               (snd (App.loadData env (posted (started w p)))))
        | None =>
            (Value tt,
             settled "Error submitting feedback. Please try again."
               (failed "AxiosError" [submitted (App.newFeedback p)]
                       (started w p)))
        end
    | (Value false, w) =>
        (Value tt,
         settled "Rate limit exceeded. Please try again later." (started w p))
    | (Throws e, w) =>
        (Value tt,
         settled "Error submitting feedback. Please try again."
           (failed e [] (started w p)))
    | (Untyped, w) => (Untyped, started w p)
    end.
Proof.
  unfold ready, filled, App.handleSubmitFeedback.
  unfold settled, failed, posted, started, submitted, console_error.
  page_run.
  destruct (canProceed (state (App.hook p))); [|discriminate]. page_run.
  destruct (App.user p); [|discriminate]. page_run.
  destruct (truthy (App.trim (App.title (App.newFeedback p)))); [|discriminate].
  destruct (truthy (App.trim (App.description (App.newFeedback p))));
    [|discriminate].
  intros _. page_run.
  destruct (recordRequest config (App.hook p)) as [[[|]|e|] w]; page_run.
  - destruct (App.respond p (length (App.sent p))) as [data|]; page_run.
    + rewrite !loadData_eq. page_run.
      answers; reflexivity.
    + reflexivity.
  - reflexivity.
  - rewrite app_nil_r. reflexivity.
  - reflexivity.
Qed.

End Submit.

Section Trim.

Lemma trimStart_blank s : blank s = true -> App.trimStart s = EmptyString.
Proof.
  induction s as [|c r IH]; [reflexivity|].
  cbn. destruct (App.is_space c); [exact IH|discriminate].
Qed.

Lemma trimStart_filled s :
  blank s = false ->
  exists c r, App.trimStart s = String c r /\ App.is_space c = false.
Proof.
  induction s as [|c r IH]; [discriminate|].
  cbn. destruct (App.is_space c) eqn:E; [exact IH|].
  intros _. now exists c, r.
Qed.

Lemma trimEnd_filled c r :
  App.is_space c = false -> App.trimEnd (String c r) <> EmptyString.
Proof.
  intros E. cbn. rewrite E. now destruct (App.trimEnd r).
Qed.

(** [!s.trim()] holds exactly of the texts of white space only. *)
Lemma trim_blank s : truthy (App.trim s) = negb (blank s).
Proof.
  unfold App.trim. destruct (blank s) eqn:E.
  - now rewrite (trimStart_blank s E).
  - destruct (trimStart_filled s E) as (c & r & -> & Hc).
    pose proof (trimEnd_filled c r Hc).
    now destruct (App.trimEnd (String c r)).
Qed.

End Trim.

(** X9: [loadData] throws nothing and always sends its two requests;
    it replaces both lists when both requests are answered, and neither
    list when one of them fails, which it reports on the console. It
    changes nothing else of the page, and nothing of the store. *)
Theorem loadData_all_or_nothing env p :
  exists p',
    App.loadData env p = (Value tt, p')
    /\ App.sent p' = (App.sent p ++ reload env)%list
    /\ same_storage (App.hook p) (App.hook p')
    /\ state (App.hook p') = state (App.hook p)
    /\ App.newFeedback p' = App.newFeedback p
    /\ App.alerts p' = App.alerts p
    /\ App.loading p' = App.loading p
    /\ match App.respond p (length (App.sent p)),
             App.respond p (S (length (App.sent p))) with
       | Some items, Some logs =>
           App.feedback p' = items /\ App.changelogs p' = logs
           /\ console (App.hook p') = console (App.hook p)
       | _, _ =>
           App.feedback p' = App.feedback p
           /\ App.changelogs p' = App.changelogs p
           /\ console (App.hook p')
              = (console (App.hook p) ++ ["Error loading data: AxiosError"])%list
       end.
Proof.
  rewrite loadData_eq. eexists. split; [reflexivity|].
  destruct (App.respond p (length (App.sent p))),
           (App.respond p (S (length (App.sent p))));
    cbn -[reload]; repeat split; reflexivity.
Qed.

(** X10: a submission that fails a check of the form changes nothing: if
    the rendered state of the limiter does not let it proceed, or nobody
    is signed in, or a field of the draft is empty or white space only,
    [handleSubmitFeedback] shows one message and returns; the limiter is
    not consulted, so no request of the quota is used, nothing is sent,
    and the draft stays. *)
Theorem refused_submission_changes_nothing env config p :
  canProceed (state (App.hook p)) = false
  \/ App.user p = None
  \/ blank (App.title (App.newFeedback p)) = true
  \/ blank (App.description (App.newFeedback p)) = true ->
  exists message p',
    App.handleSubmitFeedback env config p = (Value tt, p')
    /\ App.alerts p' = (App.alerts p ++ [message])%list
    /\ App.hook p' = App.hook p
    /\ App.sent p' = App.sent p
    /\ App.newFeedback p' = App.newFeedback p
    /\ App.loading p' = App.loading p
    /\ App.feedback p' = App.feedback p
    /\ App.changelogs p' = App.changelogs p.
Proof.
  intros H.
  assert (Hready : ready p = false).
  { unfold ready, filled. rewrite !trim_blank.
    destruct H as [-> | [-> | [-> | ->]]]; [reflexivity|..].
    - now rewrite andb_false_r.
    - now rewrite andb_false_r.
    - now rewrite !andb_false_r. }
  destruct (handleSubmitFeedback_refused env config p Hready) as (m & Hm).
  exists m, (refused m p). split; [exact Hm|]. now repeat split.
Qed.

(** [refused_submission_changes_nothing] at a sample page. *)
Lemma refused_submission_changes_nothing_witness :
  let p := App.Build_Page (world ∅ false false (ticking 1000))
             (Some (App.Build_User "u1")) (JSON.JArray []) (JSON.JArray [])
             false (App.Build_Draft "Title" "   ") [] false []
             (fun _ => None) in
  exists message p',
    App.handleSubmitFeedback (Build_ImportMetaEnv None None None) feedback p
    = (Value tt, p')
    /\ App.alerts p' = (App.alerts p ++ [message])%list
    /\ App.hook p' = App.hook p
    /\ App.sent p' = App.sent p
    /\ App.newFeedback p' = App.newFeedback p
    /\ App.loading p' = App.loading p
    /\ App.feedback p' = App.feedback p
    /\ App.changelogs p' = App.changelogs p.
Proof.
  intros p.
  apply (refused_submission_changes_nothing
           (Build_ImportMetaEnv None None None) feedback p).
  right. right. right. reflexivity.
Defined.

(** X11: a draft is posted only through the limiter: whatever the page
    and the store, [handleSubmitFeedback] throws nothing, and either it
    sends nothing, or the page passed the checks of the form,
    [recordRequest] returned [true], and what was sent is the draft, with
    the status [submitted] and no tags, followed, if the server took it,
    by the two requests of [loadData]. *)
Theorem submission_posts_only_when_recorded env config p :
  (forall e, fst (App.handleSubmitFeedback env config p) <> Throws e)
  /\ (App.sent (snd (App.handleSubmitFeedback env config p)) = App.sent p
      \/ (ready p = true
          /\ (exists w, recordRequest config (App.hook p) = (Value true, w))
          /\ (App.sent (snd (App.handleSubmitFeedback env config p))
              = (App.sent p ++ [submitted (App.newFeedback p)])%list
              \/ App.sent (snd (App.handleSubmitFeedback env config p))
                 = (App.sent p ++ submitted (App.newFeedback p) :: reload env)%list))).
Proof.
  destruct (ready p) eqn:Hready.
  - rewrite (handleSubmitFeedback_ready env config p Hready).
    destruct (recordRequest config (App.hook p)) as [[[|]|e|] w] eqn:Hrec.
    + destruct (App.respond p (length (App.sent p))).
      * rewrite loadData_eq. split; [discriminate|]. right.
        split; [reflexivity|]. split; [now exists w|]. right.
        answers; cbn -[reload]; now rewrite <- app_assoc.
      * split; [discriminate|]. right.
        split; [reflexivity|]. split; [now exists w|]. now left.
    + split; [discriminate|]. now left.
    + now destruct (recordRequest_never_throws config (App.hook p) e w).
    + split; [discriminate|]. now left.
  - destruct (handleSubmitFeedback_refused env config p Hready) as (m & ->).
    split; [discriminate|]. now left.
Qed.

(** X12: on a store within the types of the source a submission always
    returns, with exactly one message shown and the default action of
    the event prevented; and once it has passed the checks of the form
    it ends with [loading] off, whatever the limiter and the server
    do. *)
Theorem submission_settles env config p :
  storage_typed config (App.hook p) = true ->
  exists message p',
    App.handleSubmitFeedback env config p = (Value tt, p')
    /\ App.alerts p' = (App.alerts p ++ [message])%list
    /\ App.defaultPrevented p' = true
    /\ App.user p' = App.user p
    /\ (ready p = true -> App.loading p' = false).
Proof.
  intros Ht. destruct (ready p) eqn:Hready.
  - rewrite (handleSubmitFeedback_ready env config p Hready).
    destruct (recordRequest_total config (App.hook p) Ht)
      as (d & w1 & w' & _ & -> & _).
    destruct (negb _).
    + destruct (App.respond p (length (App.sent p))).
      * rewrite loadData_eq.
        answers; (eexists _, _; split; [reflexivity|]); now repeat split.
      * eexists _, _. split; [reflexivity|]. now repeat split.
    + eexists _, _. split; [reflexivity|]. now repeat split.
  - destruct (handleSubmitFeedback_refused env config p Hready) as (m & ->).
    exists m, (refused m p). split; [reflexivity|].
    split; [reflexivity|]. split; [reflexivity|]. split; [reflexivity|].
    discriminate.
Qed.

(** [submission_settles] at a sample page. *)
Lemma submission_settles_witness :
  let p := page (world ∅ false false (ticking 1000)) (fun _ => None) in
  exists message p',
    App.handleSubmitFeedback (Build_ImportMetaEnv None None None) feedback p
    = (Value tt, p')
    /\ App.alerts p' = (App.alerts p ++ [message])%list
    /\ App.defaultPrevented p' = true
    /\ App.user p' = App.user p
    /\ (ready p = true -> App.loading p' = false).
Proof.
  intros p.
  apply (submission_settles (Build_ImportMetaEnv None None None) feedback p).
  reflexivity.
Defined.

(** X13: the request is recorded before the draft is sent: when a
    submission passes the checks of the form on a working store whose
    loaded record is short of the limit, the store afterwards holds the
    record with the time of the submission appended, whether the server
    takes the draft or not. If it does, the form is emptied, [loadData]
    runs and success is reported; if it does not, the failure is logged
    and reported, the draft and the lists stay, and the request of the
    quota is used all the same. Either way [loading] ends off. *)
Theorem accepted_submission_uses_quota env config p d w1 :
  ready p = true -> operational (App.hook p) ->
  loadFromStorage config (App.hook p) = (Value d, w1) ->
  Z.of_nat (length (Data.requests d)) < maxRequests config ->
  exists p',
    App.handleSubmitFeedback env config p = (Value tt, p')
    /\ persisted config (App.hook p')
         (Data.make (Data.requests d ++ [clock w1 (ticks w1)]) (Data.resetTime d))
    /\ App.loading p' = false
    /\ match App.respond p (length (App.sent p)) with
       | Some _ =>
           App.newFeedback p' = App.Build_Draft EmptyString EmptyString
           /\ App.sent p'
              = (App.sent p ++ submitted (App.newFeedback p) :: reload env)%list
           /\ App.alerts p'
              = (App.alerts p ++ ["Feedback submitted successfully!"])%list
       | None =>
           App.newFeedback p' = App.newFeedback p
           /\ App.sent p' = (App.sent p ++ [submitted (App.newFeedback p)])%list
           /\ App.alerts p'
              = (App.alerts p
                 ++ ["Error submitting feedback. Please try again."])%list
           /\ In "Error submitting feedback: AxiosError" (console (App.hook p'))
           /\ App.feedback p' = App.feedback p
           /\ App.changelogs p' = App.changelogs p
       end.
Proof.
  intros Hready Ho Hl Hlt.
  destruct (recordRequest_accepted config (App.hook p) d w1 Ho Hl Hlt)
    as (w' & Hrec & Hp & _).
  rewrite (handleSubmitFeedback_ready env config p Hready), Hrec.
  destruct (App.respond p (length (App.sent p))).
  - rewrite loadData_eq.
    answers; (eexists; split; [reflexivity|]); cbn -[reload];
      (split; [try (eapply persisted_same; [apply same_storage_log|]); exact Hp|]);
      (split; [reflexivity|]); (split; [reflexivity|]);
      (split; [now rewrite <- app_assoc|reflexivity]).
  - eexists. split; [reflexivity|]. cbn.
    split; [eapply persisted_same; [apply same_storage_log|exact Hp]|].
    split; [reflexivity|]. split; [reflexivity|]. split; [reflexivity|].
    split; [reflexivity|]. split; [|now split].
    apply in_or_app. right. now left.
Qed.

(** [accepted_submission_uses_quota] at a sample page, whose server
    answers nothing. *)
Lemma accepted_submission_uses_quota_witness :
  let w := world (holding [1000; 2000] 301000) false false (ticking 3000) in
  let p := page w (fun _ => None) in
  exists p',
    App.handleSubmitFeedback (Build_ImportMetaEnv None None None) feedback p
    = (Value tt, p')
    /\ persisted feedback (App.hook p') (Data.make ([1000; 2000] ++ [3001]) 301000)
    /\ App.loading p' = false
    /\ App.newFeedback p' = App.newFeedback p
    /\ App.sent p' = (App.sent p ++ [submitted (App.newFeedback p)])%list
    /\ App.alerts p'
       = (App.alerts p ++ ["Error submitting feedback. Please try again."])%list
    /\ In "Error submitting feedback: AxiosError" (console (App.hook p'))
    /\ App.feedback p' = App.feedback p
    /\ App.changelogs p' = App.changelogs p.
Proof.
  intros w p.
  apply (accepted_submission_uses_quota (Build_ImportMetaEnv None None None)
           feedback p (Data.make [1000; 2000] 301000) (tick w)).
  - reflexivity.
  - split; reflexivity.
  - vm_compute. reflexivity.
  - vm_compute. reflexivity.
Defined.

(** X14: the limiter has the last word: when the rendered state lets a
    submission proceed but the record loaded from the store is at the
    limit, [handleSubmitFeedback] sends nothing, leaves the store and
    the draft as they are, reports that the limit is exceeded and ends
    with [loading] off. *)
Theorem stale_state_is_caught env config p d w1 :
  ready p = true -> storage_typed config (App.hook p) = true ->
  loadFromStorage config (App.hook p) = (Value d, w1) ->
  maxRequests config <= Z.of_nat (length (Data.requests d)) ->
  exists p',
    App.handleSubmitFeedback env config p = (Value tt, p')
    /\ App.sent p' = App.sent p
    /\ same_storage (App.hook p) (App.hook p')
    /\ App.alerts p'
       = (App.alerts p ++ ["Rate limit exceeded. Please try again later."])%list
    /\ App.loading p' = false
    /\ App.newFeedback p' = App.newFeedback p.
Proof.
  intros Hready Ht Hl Hge.
  destruct (recordRequest_total config (App.hook p) Ht)
    as (d' & w1' & w' & Hl' & Hrec & Hs & _).
  rewrite Hl in Hl'. injection Hl' as <- <-.
  rewrite (handleSubmitFeedback_ready env config p Hready), Hrec.
  destruct (Z.geb_spec (Z.of_nat (length (Data.requests d))) (maxRequests config));
    [|lia].
  eexists. split; [reflexivity|]. cbn.
  split; [reflexivity|]. split; [now apply Hs|]. now repeat split.
Qed.

(** [stale_state_is_caught] at a sample page: the store holds three
    requests of the window, the rendered state is that of a page that
    has not refreshed yet. *)
Lemma stale_state_is_caught_witness :
  let w := world (holding [1000; 2000; 2500] 301000) false false (ticking 3000) in
  let p := page w (fun _ => Some JSON.JNull) in
  exists p',
    App.handleSubmitFeedback (Build_ImportMetaEnv None None None) feedback p
    = (Value tt, p')
    /\ App.sent p' = App.sent p
    /\ same_storage (App.hook p) (App.hook p')
    /\ App.alerts p'
       = (App.alerts p ++ ["Rate limit exceeded. Please try again later."])%list
    /\ App.loading p' = false
    /\ App.newFeedback p' = App.newFeedback p.
Proof.
  intros w p.
  apply (stale_state_is_caught (Build_ImportMetaEnv None None None)
           feedback p (Data.make [1000; 2000; 2500] 301000) (tick w)).
  - reflexivity.
  - vm_compute. reflexivity.
  - vm_compute. reflexivity.
  - vm_compute. discriminate.
Defined.

(** ** Runs of the page *)

Section Counting.

Variable config : RateLimitConfig.
Variable w0 : World.
Variable deadline : Z.



End Counting.

Section Counted.

Variable config : RateLimitConfig.
Variable w0 : World.
Variable deadline : Z.
Variable n : nat.
Hypothesis Hw : within_window config w0 deadline n.




End Counted.


Section Run.

Variable env : ImportMetaEnv.
Variable config : RateLimitConfig.
Variable w0 : World.
Variable deadline : Z.
Variable n N : nat.
Hypothesis Hw : within_window config w0 deadline n.
Hypothesis HN : maxRequests config = Z.of_nat N.




End Run.


